(** * Mergington High School activities API ([src/app.py])

    A shallow embedding of the request handlers of [src/app.py] and the
    properties of its session registry and activity catalog.

    Python values are modelled as follows.
    - [str] is [string]: the UTF-8 bytes of the text, so a [str] is ASCII
      exactly when every byte is below 128.
    - [Optional[str]] (the [session_token] cookie) is [option string].
    - The module-level dicts [sessions], [teachers] and [activities] are
      [gmap]s keyed by strings; an activity (a dict with four fixed keys) is
      a record, its ["participants"] list a [list string].
    - A handler is a function from the module state to an outcome and the
      new state; raising is the left injection.  Requests are served one at
      a time: a handler runs from its first line to its last on the state
      the previous one left. *)

From Stdlib Require Import ZArith Ascii String.
From stdpp Require Import base strings list gmap fin_maps.

(** ** Data *)

(** The values of [activities]: [{"description": ..., "schedule": ...,
    "max_participants": ..., "participants": [...]}]. *)
Record Activity : Type := mkActivity {
  description : string;
  schedule : string;
  max_participants : Z;
  participants : list string
}.

(** The mutable module-level state: [sessions] and [activities]. *)
Record State : Type := mkState {
  sessions : gmap string string;
  activities : gmap string Activity
}.

(** What a handler can raise.  [HTTPException] is FastAPI's; the other
    three are Python's own and, uncaught, become a 500 response. *)
Inductive exception : Type :=
| HTTPException (status_code : Z) (detail : string)
| TypeError (message : string)
| KeyError (key : option string)
| ValueError (message : string).

(** Values of the JSON bodies the handlers return. *)
Inductive json : Type :=
| JStr (s : string)
| JBool (b : bool).

(** What a handler did to the [Response] object it was given. *)
Inductive cookie_op : Type :=
| NoCookieOp
| SetCookie (key value : string) (httponly : bool) (max_age : Z)
| DeleteCookie (key : string).

Record reply : Type := mkReply {
  body : list (string * json);
  cookie : cookie_op
}.

(** ** Handlers as state transformers that may raise *)

Definition handler (A : Type) : Type := State -> (exception + A) * State.

Definition ret {A : Type} (x : A) : handler A := fun st => (inr x, st).

Definition raise {A : Type} (e : exception) : handler A := fun st => (inl e, st).

Definition bind {A B : Type} (m : handler A) (k : A -> handler B) : handler B :=
  fun st =>
    match m st with
    | (inl e, st') => (inl e, st')
    | (inr x, st') => k x st'
    end.

Notation "'let*' x := m 'in' k" := (bind m (fun x => k))
  (at level 10, x name, m at level 200, k at level 200).

Definition read {A : Type} (f : State -> A) : handler A := fun st => (inr (f st), st).

Definition lift {A : Type} (r : exception + A) : handler A := fun st => (r, st).

(** ** Python primitives *)

(** Truth value of an [Optional[str]]: [None] and [""] are false. *)
Definition truthy (o : option string) : bool :=
  match o with
  | None => false
  | Some s => negb (String.eqb s "")
  end.

(** [k in d] for a dict with string keys and a key that may be [None]. *)
Definition contains {V : Type} (d : gmap string V) (k : option string) : bool :=
  match k with
  | None => false
  | Some s => bool_decide (is_Some (d !! s))
  end.

(** [d[k]]: [KeyError] when the key is absent. *)
Definition getitem {V : Type} (d : gmap string V) (k : option string) : handler V :=
  match k ≫= (d !!.) with
  | Some v => ret v
  | None => raise (KeyError k)
  end.

(** [x in l] for a list of strings. *)
Definition list_contains (x : string) (l : list string) : bool :=
  bool_decide (x ∈ l).

(** [l.remove(x)]: drops the first item equal to [x]; [None] stands for the
    [ValueError] Python raises when there is none. *)
Fixpoint list_remove (x : string) (l : list string) : option (list string) :=
  match l with
  | [] => None
  | y :: l' =>
      if decide (y = x) then Some l'
      else match list_remove x l' with
           | Some r => Some (y :: r)
           | None => None
           end
  end.

(** [l.count(x)]. *)
Fixpoint list_count (x : string) (l : list string) : nat :=
  match l with
  | [] => O
  | y :: l' => if decide (y = x) then S (list_count x l') else list_count x l'
  end.

Definition is_ascii (s : string) : bool :=
  forallb (fun c => nat_of_ascii c <? 128) (list_ascii_of_string s).

(** [secrets.compare_digest(a, b)] on two [str]: equality, but a
    [TypeError] unless both are ASCII. *)
Definition compare_digest (a b : string) : exception + bool :=
  if is_ascii a && is_ascii b then inr (String.eqb a b)
  else inl (TypeError "comparing strings with non-ASCII characters is not supported").

(** ** Mutations of the module state *)

(** [sessions[token] = username] *)
Definition sessions_setitem (token username : string) : handler unit :=
  fun st => (inr tt, mkState (<[token := username]> (sessions st)) (activities st)).

(** [del sessions[session_token]] *)
Definition sessions_delitem (session_token : option string) : handler unit :=
  fun st =>
    match session_token with
    | Some t =>
        if contains (sessions st) session_token then
          (inr tt, mkState (delete t (sessions st)) (activities st))
        else (inl (KeyError session_token), st)
    | None => (inl (KeyError session_token), st)
    end.

Definition with_participants (a : Activity) (ps : list string) : Activity :=
  mkActivity (description a) (schedule a) (max_participants a) ps.

(** [activity["participants"].append(email)], where [activity] is the
    object stored at [activities[activity_name]]: the list is changed in
    place, so the change is seen through the catalog. *)
Definition participants_append (activity_name email : string) : handler unit :=
  fun st =>
    (inr tt,
     mkState (sessions st)
       (alter (fun a => with_participants a (participants a ++ [email]))
          activity_name (activities st))).

(** [activity["participants"].remove(email)], in place as well. *)
Definition participants_remove (activity_name email : string)
    (activity : Activity) : handler unit :=
  fun st =>
    match list_remove email (participants activity) with
    | Some ps =>
        (inr tt,
         mkState (sessions st)
           (alter (fun a => with_participants a ps) activity_name (activities st)))
    | None => (inl (ValueError "list.remove(x): x not in list"), st)
    end.

(** ** The seed catalog *)

(** The dict display that initialises [activities], in source order. *)
Definition activities_literal : list (string * Activity) :=
  [
    ("Chess Club",
     mkActivity "Learn strategies and compete in chess tournaments"
       "Fridays, 3:30 PM - 5:00 PM" 12
       ["michael@mergington.edu"; "daniel@mergington.edu"]);
    ("Programming Class",
     mkActivity "Learn programming fundamentals and build software projects"
       "Tuesdays and Thursdays, 3:30 PM - 4:30 PM" 20
       ["emma@mergington.edu"; "sophia@mergington.edu"]);
    ("Gym Class",
     mkActivity "Physical education and sports activities"
       "Mondays, Wednesdays, Fridays, 2:00 PM - 3:00 PM" 30
       ["john@mergington.edu"; "olivia@mergington.edu"]);
    ("Soccer Team",
     mkActivity "Join the school soccer team and compete in matches"
       "Tuesdays and Thursdays, 4:00 PM - 5:30 PM" 22
       ["liam@mergington.edu"; "noah@mergington.edu"]);
    ("Basketball Team",
     mkActivity "Practice and play basketball with the school team"
       "Wednesdays and Fridays, 3:30 PM - 5:00 PM" 15
       ["ava@mergington.edu"; "mia@mergington.edu"]);
    ("Art Club",
     mkActivity "Explore your creativity through painting and drawing"
       "Thursdays, 3:30 PM - 5:00 PM" 15
       ["amelia@mergington.edu"; "harper@mergington.edu"]);
    ("Drama Club",
     mkActivity "Act, direct, and produce plays and performances"
       "Mondays and Wednesdays, 4:00 PM - 5:30 PM" 20
       ["ella@mergington.edu"; "scarlett@mergington.edu"]);
    ("Math Club",
     mkActivity "Solve challenging problems and participate in math competitions"
       "Tuesdays, 3:30 PM - 4:30 PM" 10
       ["james@mergington.edu"; "benjamin@mergington.edu"]);
    ("Debate Team",
     mkActivity "Develop public speaking and argumentation skills"
       "Fridays, 4:00 PM - 5:30 PM" 12
       ["charlotte@mergington.edu"; "henry@mergington.edu"])
  ].

Definition activities_seed : gmap string Activity := list_to_map activities_literal.

(** The state when the module has been loaded. *)
Definition initial_state : State := mkState ∅ activities_seed.

(** ** Request handlers *)

Section Handlers.

(** The result of [load_teachers()]: username to password, read once from
    [teachers.json] and never changed afterwards. *)
Variable teachers : gmap string string.

(** [GET /activities] *)
Definition get_activities : handler (gmap string Activity) :=
  read activities.

(** [POST /login].  [token] is the value [secrets.token_urlsafe(32)]
    returns when it is called. *)
Definition login (username password : string) (token : string) : handler reply :=
  let* ok :=
    if contains teachers (Some username) then
      let* stored := getitem teachers (Some username) in
      lift (compare_digest stored password)
    else ret false
  in
  if (ok : bool) then
    let* _ := sessions_setitem token username in
    ret (mkReply [("message", JStr "Login successful"); ("username", JStr username)]
           (SetCookie "session_token" token true 86400))
  else raise (HTTPException 401 "Invalid credentials").

(** [POST /logout] *)
Definition logout (session_token : option string) : handler reply :=
  let* ss := read sessions in
  let* _ :=
    if truthy session_token && contains ss session_token
    then sessions_delitem session_token
    else ret tt
  in
  ret (mkReply [("message", JStr "Logged out successfully")]
         (DeleteCookie "session_token")).

(** [GET /auth/status] *)
Definition auth_status (session_token : option string) : handler reply :=
  let* ss := read sessions in
  if truthy session_token && contains ss session_token then
    let* username := getitem ss session_token in
    ret (mkReply [("authenticated", JBool true); ("username", JStr username)] NoCookieOp)
  else ret (mkReply [("authenticated", JBool false)] NoCookieOp).

(** [require_auth] *)
Definition require_auth (session_token : option string) : handler string :=
  let* ss := read sessions in
  if negb (truthy session_token) || negb (contains ss session_token) then
    raise (HTTPException 401 "Authentication required")
  else getitem ss session_token.

(** [POST /activities/{activity_name}/signup] *)
Definition signup_for_activity (activity_name email : string)
    (session_token : option string) : handler reply :=
  let* _ := require_auth session_token in
  let* acts := read activities in
  if negb (contains acts (Some activity_name)) then
    raise (HTTPException 404 "Activity not found")
  else
    let* activity := getitem acts (Some activity_name) in
    if list_contains email (participants activity) then
      raise (HTTPException 400 "Student is already signed up")
    else
      let* _ := participants_append activity_name email in
      ret (mkReply
             [("message", JStr ("Signed up " +:+ email +:+ " for " +:+ activity_name))]
             NoCookieOp).

(** [DELETE /activities/{activity_name}/unregister] *)
Definition unregister_from_activity (activity_name email : string)
    (session_token : option string) : handler reply :=
  let* _ := require_auth session_token in
  let* acts := read activities in
  if negb (contains acts (Some activity_name)) then
    raise (HTTPException 404 "Activity not found")
  else
    let* activity := getitem acts (Some activity_name) in
    if negb (list_contains email (participants activity)) then
      raise (HTTPException 400 "Student is not signed up for this activity")
    else
      let* _ := participants_remove activity_name email activity in
      ret (mkReply
             [("message", JStr ("Unregistered " +:+ email +:+ " from " +:+ activity_name))]
             NoCookieOp).

End Handlers.

(** ** Session validity and the reachable states *)

(** A cookie carries a valid session when the guard of [require_auth] lets
    it through: a non-empty token that is a key of [sessions]. *)
Definition valid_session (st : State) (session_token : option string) : Prop :=
  ∃ tok username,
    session_token = Some tok ∧ tok ≠ "" ∧ sessions st !! tok = Some username.

(** The requests that change state, with everything a handler reads from
    outside the state: for [login], also the token the random source gives. *)
Inductive request : Type :=
| Login (username password token : string)
| Logout (session_token : option string)
| Signup (activity_name email : string) (session_token : option string)
| Unregister (activity_name email : string) (session_token : option string).

Definition serve (teachers : gmap string string) (r : request) (st : State) : State :=
  match r with
  | Login u p tok => snd (login teachers u p tok st)
  | Logout c => snd (logout c st)
  | Signup n e c => snd (signup_for_activity n e c st)
  | Unregister n e c => snd (unregister_from_activity n e c st)
  end.

Inductive reachable (teachers : gmap string string) : State -> Prop :=
| reachable_initial : reachable teachers initial_state
| reachable_serve st r :
    reachable teachers st -> reachable teachers (serve teachers r st).

(** Each email at most once in every roster. *)
Definition rosters_unique (st : State) : Prop :=
  ∀ name a email,
    activities st !! name = Some a -> (list_count email (participants a) ≤ 1)%nat.

(** ** Replies, errors and state updates named in the statements *)

Definition unauthorized : exception := HTTPException 401 "Authentication required".
Definition not_found : exception := HTTPException 404 "Activity not found".
Definition already_registered : exception := HTTPException 400 "Student is already signed up".
Definition not_registered : exception :=
  HTTPException 400 "Student is not signed up for this activity".
Definition invalid_credentials : exception := HTTPException 401 "Invalid credentials".

Definition signed_up (activity_name email : string) : reply :=
  mkReply [("message", JStr ("Signed up " +:+ email +:+ " for " +:+ activity_name))]
    NoCookieOp.

Definition unregistered (activity_name email : string) : reply :=
  mkReply [("message", JStr ("Unregistered " +:+ email +:+ " from " +:+ activity_name))]
    NoCookieOp.

Definition logged_out : reply :=
  mkReply [("message", JStr "Logged out successfully")] (DeleteCookie "session_token").

Definition logged_in (username token : string) : reply :=
  mkReply [("message", JStr "Login successful"); ("username", JStr username)]
    (SetCookie "session_token" token true 86400).

(** The roster of an activity replaced, everything else as it was. *)
Definition set_roster (st : State) (activity_name : string) (a : Activity)
    (ps : list string) : State :=
  mkState (sessions st) (<[activity_name := with_participants a ps]> (activities st)).

(** [sessions] once [logout] has run with cookie [c]. *)
Definition forget (c : option string) (ss : gmap string string) : gmap string string :=
  match c with
  | Some tok => if decide (tok = "") then ss else delete tok ss
  | None => ss
  end.

(** The token of a [Login] request is not empty, as every value of
    [secrets.token_urlsafe(32)] is: 43 characters. *)
Definition token_drawn (r : request) : Prop :=
  match r with
  | Login _ _ token => token ≠ ""
  | _ => True
  end.

(** The states of a running server: [sessions] starts empty, and the only
    line that writes a key into it is [sessions[token] = ...] in [login],
    with the value [secrets.token_urlsafe(32)] just returned. *)
Inductive running (teachers : gmap string string) : State -> Prop :=
| running_initial : running teachers initial_state
| running_serve st r :
    running teachers st -> token_drawn r -> running teachers (serve teachers r st).

(** A sequence of requests served in order. *)
Definition run (teachers : gmap string string) (rs : list request) (st : State) : State :=
  foldl (fun s r => serve teachers r s) st rs.

(** From [st] to [st'] nothing changed but, at most, the participants of
    the activity [name]: same registry, same other activities, same keys,
    and the same description, schedule and capacity for [name]. *)
Definition only_roster_changed (name : string) (st st' : State) : Prop :=
  sessions st' = sessions st ∧
  (∀ other, other ≠ name -> activities st' !! other = activities st !! other) ∧
  match activities st !! name, activities st' !! name with
  | Some a, Some a' =>
      description a' = description a ∧ schedule a' = schedule a ∧
      max_participants a' = max_participants a
  | None, None => True
  | _, _ => False
  end.

(** ** Concrete runs, used to instantiate the theorems *)

(** One teacher, as [teachers.json] could list it. *)
Definition demo_teachers : gmap string string := {[ "mrodriguez" := "art123" ]}.

(** A token as [secrets.token_urlsafe(32)] returns them: 43 URL-safe
    characters. *)
Definition demo_token : string := "Zm9vYmFyYmF6cXV4Zm9vYmFyYmF6cXV4Zm9vYmFyYmE".

(** The state after that teacher has logged in. *)
Definition demo_state : State :=
  snd (login demo_teachers "mrodriguez" "art123" demo_token initial_state).

Definition chess_club : Activity :=
  mkActivity "Learn strategies and compete in chess tournaments"
    "Fridays, 3:30 PM - 5:00 PM" 12
    ["michael@mergington.edu"; "daniel@mergington.edu"].

(** A password with a letter outside ASCII: ["pässword"] in UTF-8. *)
Definition umlaut_password : string :=
  String "p" (String (ascii_of_nat 195) (String (ascii_of_nat 164) "ssword")).

(** A teacher logs in, signs Zoe up for chess twice, takes Michael off
    the roster and logs out. *)
Definition busy_state : State :=
  run demo_teachers
    [Login "mrodriguez" "art123" demo_token;
     Signup "Chess Club" "zoe@mergington.edu" (Some demo_token);
     Signup "Chess Club" "zoe@mergington.edu" (Some demo_token);
     Unregister "Chess Club" "michael@mergington.edu" (Some demo_token);
     Logout (Some demo_token)]
    initial_state.

Definition busy_chess_club : Activity :=
  with_participants chess_club ["daniel@mergington.edu"; "zoe@mergington.edu"].

(** Eight more students in the Math Club fill its ten places. *)
Definition crowded_state : State :=
  run demo_teachers
    (Login "mrodriguez" "art123" demo_token ::
     map (fun email => Signup "Math Club" email (Some demo_token))
       ["s1@mergington.edu"; "s2@mergington.edu"; "s3@mergington.edu";
        "s4@mergington.edu"; "s5@mergington.edu"; "s6@mergington.edu";
        "s7@mergington.edu"; "s8@mergington.edu"])
    initial_state.

Definition math_club_full : Activity :=
  mkActivity "Solve challenging problems and participate in math competitions"
    "Tuesdays, 3:30 PM - 4:30 PM" 10
    ["james@mergington.edu"; "benjamin@mergington.edu";
     "s1@mergington.edu"; "s2@mergington.edu"; "s3@mergington.edu";
     "s4@mergington.edu"; "s5@mergington.edu"; "s6@mergington.edu";
     "s7@mergington.edu"; "s8@mergington.edu"].

(** ** The rest of the module: responses, the credential loader *)

(** The outcome of a request together with the state it leaves;
    [serve] is its second component. *)
Definition respond (teachers : gmap string string) (r : request) : handler reply :=
  match r with
  | Login u p tok => login teachers u p tok
  | Logout c => logout c
  | Signup n e c => signup_for_activity n e c
  | Unregister n e c => unregister_from_activity n e c
  end.

(** The requests that can end or replace the session of a cookie: a logout
    with that cookie, and a login that draws its token. *)
Definition touches (r : request) (c : option string) : Prop :=
  match r with
  | Login _ _ tok => c = Some tok
  | Logout c' => c' = c
  | _ => False
  end.

(** The activity a signup or unregister request names. *)
Definition roster_name (r : request) : option string :=
  match r with
  | Signup n _ _ | Unregister n _ _ => Some n
  | _ => None
  end.

(** The bodies [auth_status] returns. *)
Definition authenticated_as (username : string) : reply :=
  mkReply [("authenticated", JBool true); ("username", JStr username)] NoCookieOp.

Definition not_authenticated : reply :=
  mkReply [("authenticated", JBool false)] NoCookieOp.

(** [d[k]] outside a handler. *)
Definition subscript {V : Type} (d : gmap string V) (k : string) : exception + V :=
  match d !! k with
  | Some v => inr v
  | None => inl (KeyError (Some k))
  end.

(** The dict comprehension of [load_teachers],
    [{t['username']: t['password'] for t in ...}], run over the entries
    still to come with the dict built so far: for each entry the key
    expression is evaluated first, then the value, then the item is stored,
    replacing an item with the same key. *)
Fixpoint teachers_comprehension (ts : list (gmap string string))
    (built : gmap string string) : exception + gmap string string :=
  match ts with
  | [] => inr built
  | t :: ts' =>
      match subscript t "username" with
      | inl e => inl e
      | inr username =>
          match subscript t "password" with
          | inl e => inl e
          | inr password => teachers_comprehension ts' (<[username := password]> built)
          end
      end
  end.

(** [load_teachers], from the document [json.load(f)] returned on.  The
    document is taken with the shape of [teachers.json]: an object whose
    members are arrays of objects with string members.  Opening and parsing
    the file are not modelled. *)
Definition load_teachers (data : gmap string (list (gmap string string)))
  : exception + gmap string string :=
  match subscript data "teachers" with
  | inl e => inl e
  | inr ts => teachers_comprehension ts ∅
  end.

(** Two catalogs with the same activity names and, name by name, the same
    description, schedule and [max_participants]. *)
Definition same_offer (acts acts' : gmap string Activity) : Prop :=
  ∀ name,
    match acts !! name, acts' !! name with
    | Some a, Some a' =>
        description a' = description a ∧ schedule a' = schedule a ∧
        max_participants a' = max_participants a
    | None, None => True
    | _, _ => False
    end.

(** A [teachers.json] that lists one teacher twice. *)
Definition demo_document : gmap string (list (gmap string string)) :=
  {[ "teachers" :=
       [ {[ "username" := "mrodriguez"; "password" := "art123" ]};
         {[ "username" := "mchen"; "password" := "chess456" ]};
         {[ "username" := "mrodriguez"; "password" := "paint789" ]} ] ]}.

(** A second token, for a second session. *)
Definition other_token : string := "cXV1eGJhemJhcmZvb3F1dXhiYXpiYXJmb29xdXV4YmF".

(** ** Lists: [remove], [count], membership *)

Lemma list_remove_None (x : string) (l : list string) :
  list_remove x l = None ↔ x ∉ l.
Proof.
  induction l as [|y l IH]; simpl.
  - split; [intros _; apply not_elem_of_nil | done].
  - case_decide as Hyx.
    + subst y. split; [done | intros Hn; destruct Hn; left].
    + rewrite not_elem_of_cons. destruct (list_remove x l) as [r|].
      * split; [done | intros [_ Hn]; apply IH in Hn; done].
      * split; [intros _; split; [congruence | by apply IH] | done].
Qed.

Lemma list_remove_Some (x : string) (l : list string) :
  x ∈ l ->
  ∃ l1 l2, l = l1 ++ x :: l2 ∧ (x ∉ l1) ∧ list_remove x l = Some (l1 ++ l2).
Proof.
  induction l as [|y l IH]; intros Hin.
  - by apply elem_of_nil in Hin.
  - simpl. case_decide as Hyx.
    + subst y. exists [], l. split_and!; [done | apply not_elem_of_nil | done].
    + apply elem_of_cons in Hin as [-> | Hin]; [done |].
      destruct (IH Hin) as (l1 & l2 & -> & Hn & ->).
      exists (y :: l1), l2. split_and!; [done | | done].
      rewrite not_elem_of_cons. split; [congruence | done].
Qed.

Lemma list_remove_app_fresh (x : string) (l : list string) :
  x ∉ l -> list_remove x (l ++ [x]) = Some l.
Proof.
  induction l as [|y l IH]; intros Hn; simpl.
  - by rewrite decide_True.
  - apply not_elem_of_cons in Hn as [Hxy Hn].
    rewrite decide_False by congruence. by rewrite IH.
Qed.

Lemma list_count_app (x : string) (l1 l2 : list string) :
  list_count x (l1 ++ l2) = (list_count x l1 + list_count x l2)%nat.
Proof.
  induction l1 as [|y l1 IH]; simpl; [done |].
  case_decide; rewrite IH; lia.
Qed.

Lemma list_count_0 (x : string) (l : list string) :
  list_count x l = O ↔ x ∉ l.
Proof.
  induction l as [|y l IH]; simpl.
  - split; [intros _; apply not_elem_of_nil | done].
  - rewrite not_elem_of_cons. case_decide as Hyx.
    + subst y. split; [lia | intros [Hne _]; done].
    + rewrite IH. split; [intros Hn; split; [congruence | done] | by intros [_ Hn]].
Qed.

Lemma list_count_NoDup (l : list string) :
  NoDup l ↔ ∀ x, (list_count x l ≤ 1)%nat.
Proof.
  induction l as [|y l IH].
  - split; [intros _ x; simpl; lia | intros _; constructor].
  - rewrite NoDup_cons, IH. split.
    + intros [Hn Hc] x. simpl. case_decide as Hyx.
      * subst y. apply list_count_0 in Hn. lia.
      * apply Hc.
    + intros Hc. split.
      * apply list_count_0. specialize (Hc y). simpl in Hc.
        rewrite decide_True in Hc by done. lia.
      * intros x. specialize (Hc x). simpl in Hc. case_decide; lia.
Qed.

Lemma list_remove_count (x : string) (l r : list string) :
  list_remove x l = Some r ->
  list_count x l = S (list_count x r) ∧
  (∀ y, y ≠ x -> list_count y r = list_count y l) ∧
  length l = S (length r).
Proof.
  intros Hr.
  destruct (list_remove_Some x l) as (l1 & l2 & -> & Hn & Hr').
  { destruct (decide (x ∈ l)) as [|Hn]; [done |].
    apply list_remove_None in Hn. congruence. }
  rewrite Hr' in Hr. injection Hr as <-.
  split_and!.
  - rewrite !list_count_app. simpl. rewrite decide_True by done. lia.
  - intros y Hy. rewrite !list_count_app. simpl.
    rewrite decide_False by congruence. done.
  - rewrite !length_app. simpl. lia.
Qed.

Lemma list_remove_NoDup (x : string) (l r : list string) :
  list_remove x l = Some r -> NoDup l -> NoDup r.
Proof.
  rewrite !list_count_NoDup. intros Hr Hc y.
  destruct (list_remove_count x l r Hr) as (Hx & Hy & _).
  destruct (decide (y = x)) as [-> | Hne].
  - specialize (Hc x). lia.
  - rewrite (Hy y Hne). apply Hc.
Qed.

(** ** Dicts *)

Lemma contains_lookup {V : Type} (d : gmap string V) (k : string) :
  contains d (Some k) = true ↔ is_Some (d !! k).
Proof. simpl. apply bool_decide_eq_true. Qed.

Lemma contains_Some {V : Type} (d : gmap string V) (k : string) (v : V) :
  d !! k = Some v -> contains d (Some k) = true.
Proof. intros H. apply contains_lookup. by exists v. Qed.

Lemma contains_None {V : Type} (d : gmap string V) (k : string) :
  d !! k = None -> contains d (Some k) = false.
Proof.
  intros H. simpl. apply bool_decide_eq_false. rewrite H. by intros [? ?].
Qed.

Lemma alter_present {V : Type} (f : V -> V) (d : gmap string V) (k : string) (v : V) :
  d !! k = Some v -> alter f k d = <[k := f v]> d.
Proof.
  intros H. apply map_eq. intros j.
  rewrite lookup_alter, lookup_insert.
  case_decide; [subst j; by rewrite H | done].
Qed.

Lemma truthy_Some (s : string) : truthy (Some s) = true ↔ s ≠ "".
Proof.
  simpl. rewrite negb_true_iff. split.
  - intros H ->. by rewrite String.eqb_refl in H.
  - intros H. by apply String.eqb_neq.
Qed.

(** ** What each handler computes *)

Lemma require_auth_run (st : State) (c : option string) :
  require_auth c st =
  match c with
  | Some tok =>
      if decide (tok = "") then (inl unauthorized, st)
      else match sessions st !! tok with
           | Some username => (inr username, st)
           | None => (inl unauthorized, st)
           end
  | None => (inl unauthorized, st)
  end.
Proof.
  unfold require_auth, bind, read, getitem. destruct c as [tok|]; [| done].
  case_decide as Htok.
  - subst tok. done.
  - assert (truthy (Some tok) = true) as -> by by apply truthy_Some.
    destruct (sessions st !! tok) as [u|] eqn:Hs.
    + rewrite (contains_Some _ _ _ Hs). simpl. by rewrite Hs.
    + by rewrite (contains_None _ _ Hs).
Qed.

Lemma require_auth_valid (st : State) (c : option string) :
  valid_session st c -> ∃ username, require_auth c st = (inr username, st).
Proof.
  intros (tok & u & -> & Hne & Hs). exists u.
  rewrite require_auth_run, decide_False by done. by rewrite Hs.
Qed.

Lemma require_auth_invalid (st : State) (c : option string) :
  ¬ valid_session st c -> require_auth c st = (inl unauthorized, st).
Proof.
  intros Hn. rewrite require_auth_run. destruct c as [tok|]; [| done].
  case_decide; [done |].
  destruct (sessions st !! tok) as [u|] eqn:Hs; [| done].
  destruct Hn. by exists tok, u.
Qed.

Lemma signup_run (st : State) (name email : string) (c : option string) :
  valid_session st c ->
  signup_for_activity name email c st =
  match activities st !! name with
  | None => (inl not_found, st)
  | Some a =>
      if bool_decide (email ∈ participants a) then (inl already_registered, st)
      else (inr (signed_up name email),
            set_roster st name a (participants a ++ [email]))
  end.
Proof.
  intros Hv. destruct (require_auth_valid st c Hv) as [u Hu].
  unfold signup_for_activity, bind. rewrite Hu. unfold read.
  destruct (activities st !! name) as [a|] eqn:Ha.
  - rewrite (contains_Some _ _ _ Ha). simpl. unfold getitem. simpl. rewrite Ha.
    unfold ret, list_contains. case_bool_decide; [done |].
    unfold participants_append, set_roster. by rewrite (alter_present _ _ _ _ Ha).
  - by rewrite (contains_None _ _ Ha).
Qed.

Lemma unregister_run (st : State) (name email : string) (c : option string) :
  valid_session st c ->
  unregister_from_activity name email c st =
  match activities st !! name with
  | None => (inl not_found, st)
  | Some a =>
      match list_remove email (participants a) with
      | None => (inl not_registered, st)
      | Some ps => (inr (unregistered name email), set_roster st name a ps)
      end
  end.
Proof.
  intros Hv. destruct (require_auth_valid st c Hv) as [u Hu].
  unfold unregister_from_activity, bind. rewrite Hu. unfold read.
  destruct (activities st !! name) as [a|] eqn:Ha.
  - rewrite (contains_Some _ _ _ Ha). simpl. unfold getitem. simpl. rewrite Ha.
    unfold ret, list_contains. case_bool_decide as Hin; simpl.
    + destruct (list_remove_Some _ _ Hin) as (l1 & l2 & _ & _ & Hr).
      unfold participants_remove. rewrite Hr.
      unfold set_roster. by rewrite (alter_present _ _ _ _ Ha).
    + apply list_remove_None in Hin. by rewrite Hin.
  - by rewrite (contains_None _ _ Ha).
Qed.

Lemma valid_session_or (st : State) (c : option string) :
  valid_session st c ∨ ¬ valid_session st c.
Proof.
  destruct c as [tok|].
  - destruct (decide (tok = "")) as [-> | Hne].
    + right. intros (t & u & [= <-] & Hn & _). done.
    + destruct (sessions st !! tok) as [u|] eqn:Hs.
      * left. by exists tok, u.
      * right. intros (t & u & [= <-] & _ & Hu). congruence.
  - right. intros (t & u & [=] & _).
Qed.

Lemma signup_invalid (st : State) (name email : string) (c : option string) :
  ¬ valid_session st c ->
  signup_for_activity name email c st = (inl unauthorized, st).
Proof.
  intros Hn. unfold signup_for_activity, bind.
  by rewrite (require_auth_invalid st c Hn).
Qed.

Lemma unregister_invalid (st : State) (name email : string) (c : option string) :
  ¬ valid_session st c ->
  unregister_from_activity name email c st = (inl unauthorized, st).
Proof.
  intros Hn. unfold unregister_from_activity, bind.
  by rewrite (require_auth_invalid st c Hn).
Qed.

Lemma valid_session_sessions (st st' : State) (c : option string) :
  sessions st' = sessions st -> valid_session st c -> valid_session st' c.
Proof.
  intros Hs (tok & u & -> & Hne & Hu). exists tok, u. by rewrite Hs.
Qed.

Lemma set_roster_lookup (st : State) (name : string) (a : Activity) (ps : list string) :
  activities (set_roster st name a ps) !! name = Some (with_participants a ps).
Proof. unfold set_roster. simpl. apply lookup_insert_eq. Qed.

Lemma set_roster_lookup_ne (st : State) (name other : string) (a : Activity)
    (ps : list string) :
  other ≠ name ->
  activities (set_roster st name a ps) !! other = activities st !! other.
Proof. intros Hne. unfold set_roster. simpl. by apply lookup_insert_ne. Qed.

Lemma set_roster_same (st : State) (name : string) (a : Activity) :
  activities st !! name = Some a -> set_roster st name a (participants a) = st.
Proof.
  intros Ha. unfold set_roster. destruct st as [ss acts]. simpl in *. f_equal.
  apply insert_id. rewrite Ha. by destruct a.
Qed.

Lemma set_roster_twice (st : State) (name : string) (a : Activity)
    (ps ps' : list string) :
  set_roster (set_roster st name a ps) name (with_participants a ps) ps' =
  set_roster st name a ps'.
Proof. unfold set_roster. simpl. f_equal. apply insert_insert_eq. Qed.

Lemma demo_valid : valid_session demo_state (Some demo_token).
Proof.
  exists demo_token, "mrodriguez". split_and!; [done | done | by vm_compute].
Qed.

Lemma demo_chess_club : activities demo_state !! "Chess Club" = Some chess_club.
Proof. by vm_compute. Qed.

Lemma demo_reachable : reachable demo_teachers demo_state.
Proof.
  apply (reachable_serve demo_teachers initial_state
           (Login "mrodriguez" "art123" demo_token)).
  apply reachable_initial.
Qed.

(** Settles a decidable proposition about concrete data by evaluation. *)
Ltac by_computing := apply (bool_decide_unpack _); vm_compute; exact I.

(** ** Signing up twice *)

(** C1, as stated, fails: the email may be on the roster before the first
    call.  With a valid session, ["michael@mergington.edu"] is already a
    participant of ["Chess Club"] in the seed catalog, so the first signup
    is refused with 400 and nothing changes. *)
Lemma signup_first_call_refused :
  valid_session demo_state (Some demo_token) ∧
  activities demo_state !! "Chess Club" = Some chess_club ∧
  signup_for_activity "Chess Club" "michael@mergington.edu" (Some demo_token) demo_state
  = (inl already_registered, demo_state).
Proof.
  split_and!; [apply demo_valid | apply demo_chess_club |].
  rewrite (signup_run _ _ _ _ demo_valid), demo_chess_club.
  by rewrite bool_decide_eq_true_2 by by_computing.
Qed.

(** C1 (amended): for an activity in the catalog and an email that is not
    yet among its participants, with a valid session, the first signup
    succeeds and appends the email to the roster, the second fails with 400
    "already signed up" and changes nothing, and the roster is one longer
    than it was. *)
Theorem signup_twice (st : State) (name email : string) (a : Activity)
    (c : option string) :
  valid_session st c ->
  activities st !! name = Some a ->
  email ∉ participants a ->
  ∃ st1 a1,
    signup_for_activity name email c st = (inr (signed_up name email), st1) ∧
    signup_for_activity name email c st1 = (inl already_registered, st1) ∧
    activities st1 !! name = Some a1 ∧
    participants a1 = participants a ++ [email] ∧
    length (participants a1) = S (length (participants a)).
Proof.
  intros Hv Ha Hn.
  exists (set_roster st name a (participants a ++ [email])),
         (with_participants a (participants a ++ [email])).
  assert (valid_session (set_roster st name a (participants a ++ [email])) c) as Hv1
    by by apply (valid_session_sessions st).
  split_and!.
  - rewrite (signup_run _ _ _ _ Hv), Ha. by rewrite bool_decide_eq_false_2.
  - rewrite (signup_run _ _ _ _ Hv1), set_roster_lookup. simpl.
    rewrite bool_decide_eq_true_2; [done |].
    apply elem_of_app. right. by apply list_elem_of_singleton.
  - apply set_roster_lookup.
  - done.
  - simpl. rewrite length_app. simpl. lia.
Qed.

Lemma signup_twice_witness :
  ∃ st1 a1,
    signup_for_activity "Chess Club" "zoe@mergington.edu" (Some demo_token) demo_state
    = (inr (signed_up "Chess Club" "zoe@mergington.edu"), st1) ∧
    signup_for_activity "Chess Club" "zoe@mergington.edu" (Some demo_token) st1
    = (inl already_registered, st1) ∧
    activities st1 !! "Chess Club" = Some a1 ∧
    participants a1 = participants chess_club ++ ["zoe@mergington.edu"] ∧
    length (participants a1) = S (length (participants chess_club)).
Proof.
  apply (signup_twice demo_state "Chess Club" "zoe@mergington.edu" chess_club
           (Some demo_token)).
  - apply demo_valid.
  - apply demo_chess_club.
  - by_computing.
Defined.

(** ** The authentication gate *)

(** C2: a signup or unregister request whose cookie is missing, or whose
    token is not a key of [sessions], raises 401 and leaves the whole state
    (registry and catalog) as it was. *)
Theorem unauthenticated_rejected (st : State) (name email : string)
    (c : option string) :
  (c = None ∨ ∃ tok, c = Some tok ∧ sessions st !! tok = None) ->
  signup_for_activity name email c st = (inl (HTTPException 401 "Authentication required"), st) ∧
  unregister_from_activity name email c st
  = (inl (HTTPException 401 "Authentication required"), st).
Proof.
  intros Hc.
  assert (¬ valid_session st c) as Hn.
  { intros (tok & u & -> & _ & Hu).
    destruct Hc as [[=] | (t & [= <-] & Ht)]. congruence. }
  split; [by apply signup_invalid | by apply unregister_invalid].
Qed.

Lemma unauthenticated_rejected_witness :
  (signup_for_activity "Chess Club" "zoe@mergington.edu" None demo_state
   = (inl (HTTPException 401 "Authentication required"), demo_state) ∧
   unregister_from_activity "Chess Club" "zoe@mergington.edu" None demo_state
   = (inl (HTTPException 401 "Authentication required"), demo_state)) ∧
  (signup_for_activity "Chess Club" "zoe@mergington.edu" (Some "stale") demo_state
   = (inl (HTTPException 401 "Authentication required"), demo_state) ∧
   unregister_from_activity "Chess Club" "zoe@mergington.edu" (Some "stale") demo_state
   = (inl (HTTPException 401 "Authentication required"), demo_state)).
Proof.
  split.
  - apply (unauthenticated_rejected demo_state "Chess Club" "zoe@mergington.edu" None).
    left. reflexivity.
  - apply (unauthenticated_rejected demo_state "Chess Club" "zoe@mergington.edu"
             (Some "stale")).
    right. exists "stale". split; [reflexivity | vm_compute; reflexivity].
Defined.

(** ** Unregistering *)

(** C3: for an activity in the catalog, with a valid session: unregistering
    an email that is not a participant raises 400 "not signed up" and leaves
    the state as it was; unregistering a participant succeeds, and the new
    roster is the old one with one occurrence of the email (the first)
    taken out, everything else in place. *)
Theorem unregister_roster (st : State) (name email : string) (a : Activity)
    (c : option string) :
  valid_session st c ->
  activities st !! name = Some a ->
  (email ∉ participants a ->
   unregister_from_activity name email c st = (inl not_registered, st)) ∧
  (email ∈ participants a ->
   ∃ st1 a1 l1 l2,
     unregister_from_activity name email c st = (inr (unregistered name email), st1) ∧
     activities st1 !! name = Some a1 ∧
     participants a = l1 ++ email :: l2 ∧
     participants a1 = l1 ++ l2 ∧
     list_count email (participants a) = S (list_count email (participants a1)) ∧
     (∀ other, other ≠ email ->
        list_count other (participants a1) = list_count other (participants a)) ∧
     length (participants a) = S (length (participants a1))).
Proof.
  intros Hv Ha. rewrite (unregister_run _ _ _ _ Hv), Ha. split.
  - intros Hn. apply list_remove_None in Hn. by rewrite Hn.
  - intros Hin.
    destruct (list_remove_Some _ _ Hin) as (l1 & l2 & Hl & Hn & Hr).
    rewrite Hr.
    exists (set_roster st name a (l1 ++ l2)), (with_participants a (l1 ++ l2)), l1, l2.
    destruct (list_remove_count _ _ _ Hr) as (Hx & Hy & Hlen).
    split_and!; [done | apply set_roster_lookup | done | done | done | done | done].
Qed.

Lemma unregister_roster_witness :
  unregister_from_activity "Chess Club" "zoe@mergington.edu" (Some demo_token) demo_state
  = (inl not_registered, demo_state) ∧
  ∃ st1 a1 l1 l2,
    unregister_from_activity "Chess Club" "daniel@mergington.edu" (Some demo_token)
      demo_state
    = (inr (unregistered "Chess Club" "daniel@mergington.edu"), st1) ∧
    activities st1 !! "Chess Club" = Some a1 ∧
    participants chess_club = l1 ++ "daniel@mergington.edu" :: l2 ∧
    participants a1 = l1 ++ l2 ∧
    list_count "daniel@mergington.edu" (participants chess_club)
    = S (list_count "daniel@mergington.edu" (participants a1)) ∧
    (∀ other, other ≠ "daniel@mergington.edu" ->
       list_count other (participants a1) = list_count other (participants chess_club)) ∧
    length (participants chess_club) = S (length (participants a1)).
Proof.
  split.
  - apply (unregister_roster demo_state "Chess Club" "zoe@mergington.edu" chess_club
             (Some demo_token) demo_valid demo_chess_club).
    by_computing.
  - apply (unregister_roster demo_state "Chess Club" "daniel@mergington.edu" chess_club
             (Some demo_token) demo_valid demo_chess_club).
    by_computing.
Defined.

(** ** Unknown activities *)

(** C4: for a name that is not a key of the catalog, with a valid session,
    signup and unregister both raise 404 and leave the state, so the whole
    catalog, as it was. *)
Theorem unknown_activity_not_found (st : State) (name email : string)
    (c : option string) :
  valid_session st c ->
  activities st !! name = None ->
  signup_for_activity name email c st = (inl (HTTPException 404 "Activity not found"), st) ∧
  unregister_from_activity name email c st
  = (inl (HTTPException 404 "Activity not found"), st).
Proof.
  intros Hv Ha.
  rewrite (signup_run _ _ _ _ Hv), (unregister_run _ _ _ _ Hv), Ha. done.
Qed.

Lemma unknown_activity_not_found_witness :
  signup_for_activity "Knitting Circle" "zoe@mergington.edu" (Some demo_token) demo_state
  = (inl (HTTPException 404 "Activity not found"), demo_state) ∧
  unregister_from_activity "Knitting Circle" "zoe@mergington.edu" (Some demo_token)
    demo_state
  = (inl (HTTPException 404 "Activity not found"), demo_state).
Proof.
  apply (unknown_activity_not_found demo_state "Knitting Circle" "zoe@mergington.edu"
           (Some demo_token) demo_valid).
  vm_compute. reflexivity.
Defined.

(** ** Logging out *)

Lemma logout_run (st : State) (c : option string) :
  logout c st = (inr logged_out, mkState (forget c (sessions st)) (activities st)).
Proof.
  unfold logout, bind, read, forget. destruct c as [tok|].
  - case_decide as Htok.
    + subst tok. simpl. by destruct st.
    + assert (truthy (Some tok) = true) as -> by by apply truthy_Some.
      destruct (sessions st !! tok) as [u|] eqn:Hs.
      * rewrite (contains_Some _ _ _ Hs). cbn [andb]. unfold sessions_delitem.
        by rewrite (contains_Some _ _ _ Hs).
      * rewrite (contains_None _ _ Hs). cbn [andb]. unfold ret.
        rewrite (delete_id _ _ Hs). by destruct st.
  - simpl. by destruct st.
Qed.

Lemma forget_twice (c : option string) (ss : gmap string string) :
  forget c (forget c ss) = forget c ss.
Proof.
  unfold forget. destruct c as [tok|]; [| done].
  case_decide; [done |]. apply delete_delete_eq.
Qed.

Lemma forget_lookup (tok : string) (ss : gmap string string) :
  tok = "" ∨ forget (Some tok) ss !! tok = None.
Proof.
  unfold forget. case_decide; [by left | right]. apply lookup_delete_eq.
Qed.

(** What [logout] does on any value of the state type, also one no server
    reaches: it succeeds and leaves the catalog alone; afterwards the cookie
    does not pass [require_auth], a non-empty token it carried is not a key
    of the registry, and a second [logout] with the same cookie succeeds and
    changes nothing. *)
Lemma logout_ok (st : State) (c : option string) :
  ∃ st1,
    logout c st = (inr logged_out, st1) ∧
    activities st1 = activities st ∧
    match c with
    | Some tok => tok = "" ∨ sessions st1 !! tok = None
    | None => True
    end ∧
    require_auth c st1 = (inl unauthorized, st1) ∧
    logout c st1 = (inr logged_out, st1).
Proof.
  exists (mkState (forget c (sessions st)) (activities st)).
  split_and!.
  - apply logout_run.
  - done.
  - destruct c as [tok|]; [apply forget_lookup | done].
  - apply require_auth_invalid. intros (tok & u & -> & Hne & Hu). cbn [sessions] in Hu.
    destruct (forget_lookup tok (sessions st)); [done | congruence].
  - rewrite logout_run. simpl. by rewrite forget_twice.
Qed.

(** ** Logging in *)

Lemma login_run (teachers : gmap string string) (username password token : string)
    (st : State) :
  login teachers username password token st =
  match teachers !! username with
  | None => (inl invalid_credentials, st)
  | Some stored =>
      match compare_digest stored password with
      | inl e => (inl e, st)
      | inr true =>
          (inr (logged_in username token),
           mkState (<[token := username]> (sessions st)) (activities st))
      | inr false => (inl invalid_credentials, st)
      end
  end.
Proof.
  unfold login, bind. destruct (teachers !! username) as [stored|] eqn:Ht.
  - rewrite (contains_Some _ _ _ Ht). unfold getitem. simpl. rewrite Ht.
    unfold ret, lift. by destruct (compare_digest stored password) as [e | [|]].
  - by rewrite (contains_None _ _ Ht).
Qed.

Lemma compare_digest_ascii (a b : string) :
  is_ascii a = true -> is_ascii b = true ->
  compare_digest a b = inr (bool_decide (a = b)).
Proof.
  intros Ha Hb. unfold compare_digest. rewrite Ha, Hb. simpl. f_equal.
  destruct (String.eqb_spec a b) as [-> | Hne].
  - by rewrite bool_decide_eq_true_2.
  - by rewrite bool_decide_eq_false_2.
Qed.

(** On ASCII passwords [login] does what the specification says: 401 and
    no change exactly when the username is unknown or the password differs
    from the stored one; otherwise success, and the token now maps to the
    username, the registry one entry larger when the token was not a key. *)
Lemma login_ascii (teachers : gmap string string) (username password token : string)
    (st : State) :
  (∀ stored, teachers !! username = Some stored -> is_ascii stored = true) ->
  is_ascii password = true ->
  (login teachers username password token st = (inl invalid_credentials, st) ↔
   teachers !! username ≠ Some password) ∧
  (teachers !! username = Some password ->
   login teachers username password token st
   = (inr (logged_in username token),
      mkState (<[token := username]> (sessions st)) (activities st)) ∧
   (sessions st !! token = None ->
    size (<[token := username]> (sessions st)) = S (size (sessions st)))).
Proof.
  intros Hstored Hp. rewrite login_run.
  destruct (teachers !! username) as [stored|] eqn:Ht.
  - rewrite (compare_digest_ascii _ _ (Hstored stored eq_refl) Hp).
    case_bool_decide as Heq.
    + subst stored. split.
      * split; [intros [=] | intros Hne; by destruct Hne].
      * intros _. split; [done | apply map_size_insert_None].
    + split.
      * split; [intros _; congruence | done].
      * intros [= ->]. done.
  - split; [done | intros [=]].
Qed.

(** A known username with a password that is not ASCII: [compare_digest]
    raises, whatever the stored password is, and nothing is stored. *)
Lemma login_non_ascii (teachers : gmap string string)
    (username stored password token : string) (st : State) :
  teachers !! username = Some stored ->
  is_ascii password = false ->
  login teachers username password token st
  = (inl (TypeError "comparing strings with non-ASCII characters is not supported"), st).
Proof.
  intros Ht Hp. rewrite login_run, Ht. unfold compare_digest.
  by rewrite Hp, andb_false_r.
Qed.

(** C7: with a known username and a password that is not ASCII, [login]
    does not answer 401 as the claim says for a password that does not
    match: [compare_digest] raises [TypeError], which reaches the client as
    a 500.  The registry is unchanged. *)
Theorem login_non_ascii_password_raises :
  demo_teachers !! "mrodriguez" = Some "art123" ∧
  "art123" ≠ umlaut_password ∧
  login demo_teachers "mrodriguez" umlaut_password demo_token initial_state
  = (inl (TypeError "comparing strings with non-ASCII characters is not supported"),
     initial_state).
Proof.
  split_and!; [by vm_compute | by vm_compute |].
  rewrite login_run.
  assert (demo_teachers !! "mrodriguez" = Some "art123") as -> by by vm_compute.
  by vm_compute.
Qed.

(** ** What the handlers leave alone *)

Lemma login_activities (teachers : gmap string string) (u p tok : string) (st : State) :
  activities (snd (login teachers u p tok st)) = activities st.
Proof.
  rewrite login_run. destruct (teachers !! u) as [stored|]; [| done].
  by destruct (compare_digest stored p) as [e | [|]].
Qed.

Lemma logout_activities (c : option string) (st : State) :
  activities (snd (logout c st)) = activities st.
Proof. by rewrite logout_run. Qed.

(** The three ways a signup ends. *)
Lemma signup_cases (st : State) (name email : string) (c : option string) :
  snd (signup_for_activity name email c st) = st ∨
  ∃ a, activities st !! name = Some a ∧ (email ∉ participants a) ∧
       snd (signup_for_activity name email c st)
       = set_roster st name a (participants a ++ [email]).
Proof.
  destruct (valid_session_or st c) as [Hv | Hn].
  - rewrite (signup_run _ _ _ _ Hv).
    destruct (activities st !! name) as [a|]; [| by left].
    case_bool_decide; [by left | right]. by exists a.
  - left. by rewrite (signup_invalid _ _ _ _ Hn).
Qed.

(** The ways an unregister ends. *)
Lemma unregister_cases (st : State) (name email : string) (c : option string) :
  snd (unregister_from_activity name email c st) = st ∨
  ∃ a ps, activities st !! name = Some a ∧ list_remove email (participants a) = Some ps ∧
          snd (unregister_from_activity name email c st) = set_roster st name a ps.
Proof.
  destruct (valid_session_or st c) as [Hv | Hn].
  - rewrite (unregister_run _ _ _ _ Hv).
    destruct (activities st !! name) as [a|]; [| by left].
    destruct (list_remove email (participants a)) as [ps|] eqn:Hr; [right | by left].
    by exists a, ps.
  - left. by rewrite (unregister_invalid _ _ _ _ Hn).
Qed.

(** ** The roster invariant *)

Lemma rosters_unique_set_roster (st : State) (name : string) (a : Activity)
    (ps : list string) :
  rosters_unique st -> NoDup ps -> rosters_unique (set_roster st name a ps).
Proof.
  intros Hst Hps n b email Hb.
  destruct (decide (n = name)) as [-> | Hne].
  - rewrite set_roster_lookup in Hb. injection Hb as <-. simpl.
    by apply list_count_NoDup.
  - rewrite set_roster_lookup_ne in Hb by done. by apply (Hst n).
Qed.

Lemma rosters_unique_NoDup (st : State) (name : string) (a : Activity) :
  rosters_unique st -> activities st !! name = Some a -> NoDup (participants a).
Proof. intros Hst Ha. apply list_count_NoDup. intros x. by apply (Hst name). Qed.

Lemma rosters_unique_activities (st st' : State) :
  activities st' = activities st -> rosters_unique st -> rosters_unique st'.
Proof. intros He Hst n b email Hb. rewrite He in Hb. by apply (Hst n). Qed.

Lemma rosters_unique_initial : rosters_unique initial_state.
Proof.
  intros name a email Ha. revert email. apply list_count_NoDup.
  apply elem_of_list_to_map_2 in Ha.
  assert (Forall (fun p => NoDup (participants p.2)) activities_literal) as Hall
    by by_computing.
  rewrite Forall_forall in Hall. apply (Hall (name, a) Ha).
Qed.

Lemma rosters_unique_serve (teachers : gmap string string) (r : request) (st : State) :
  rosters_unique st -> rosters_unique (serve teachers r st).
Proof.
  intros Hst. destruct r as [u p tok | c | name email c | name email c]; simpl.
  - apply (rosters_unique_activities st); [apply login_activities | done].
  - apply (rosters_unique_activities st); [apply logout_activities | done].
  - destruct (signup_cases st name email c) as [-> | (a & Ha & Hn & ->)]; [done |].
    apply rosters_unique_set_roster; [done |].
    apply NoDup_app. split_and!.
    + by apply (rosters_unique_NoDup st name).
    + intros x Hx Hx'. apply list_elem_of_singleton in Hx'. by subst x.
    + apply NoDup_singleton.
  - destruct (unregister_cases st name email c) as [-> | (a & ps & Ha & Hr & ->)];
      [done |].
    apply rosters_unique_set_roster; [done |].
    apply (list_remove_NoDup email (participants a)); [done |].
    by apply (rosters_unique_NoDup st name).
Qed.

(** C5: in every state reached from the seed catalog by login, logout,
    signup and unregister requests, in any number and order, an email occurs
    at most once in the participants of any activity. *)
Theorem reachable_rosters_unique (teachers : gmap string string) (st : State) :
  reachable teachers st ->
  ∀ name a email,
    activities st !! name = Some a -> list_count email (participants a) ≤ 1.
Proof.
  intros Hr. change (rosters_unique st).
  induction Hr as [| st r _ IH].
  - apply rosters_unique_initial.
  - by apply rosters_unique_serve.
Qed.

Lemma reachable_run (teachers : gmap string string) (rs : list request) (st : State) :
  reachable teachers st -> reachable teachers (run teachers rs st).
Proof.
  revert st. induction rs as [|r rs IH]; intros st Hst; simpl.
  - done.
  - apply IH. by apply reachable_serve.
Qed.

Lemma busy_state_chess_club : activities busy_state !! "Chess Club" = Some busy_chess_club.
Proof. by vm_compute. Qed.

Lemma reachable_rosters_unique_witness :
  list_count "zoe@mergington.edu" (participants busy_chess_club) ≤ 1.
Proof.
  apply (reachable_rosters_unique demo_teachers busy_state
           (reachable_run demo_teachers _ initial_state (reachable_initial demo_teachers))
           "Chess Club" busy_chess_club "zoe@mergington.edu").
  apply busy_state_chess_club.
Defined.

(** ** Capacity *)

(** C8: signup never looks at [max_participants]: past the authentication
    gate of the handler, for an activity in the catalog and an email not
    among its participants, the signup succeeds and appends the email,
    whatever the length of the roster and the value of [max_participants],
    also when the roster is full or over. *)
Theorem signup_ignores_capacity (st : State) (name email : string) (a : Activity)
    (c : option string) :
  valid_session st c ->
  activities st !! name = Some a ->
  email ∉ participants a ->
  ∃ st1 a1,
    signup_for_activity name email c st = (inr (signed_up name email), st1) ∧
    activities st1 !! name = Some a1 ∧
    participants a1 = participants a ++ [email] ∧
    max_participants a1 = max_participants a.
Proof.
  intros Hv Ha Hn.
  exists (set_roster st name a (participants a ++ [email])),
         (with_participants a (participants a ++ [email])).
  split_and!; [| apply set_roster_lookup | done | done].
  rewrite (signup_run _ _ _ _ Hv), Ha. by rewrite bool_decide_eq_false_2.
Qed.

Lemma signup_ignores_capacity_witness :
  (max_participants math_club_full ≤ Z.of_nat (length (participants math_club_full)))%Z ∧
  ∃ st1 a1,
    signup_for_activity "Math Club" "s9@mergington.edu" (Some demo_token) crowded_state
    = (inr (signed_up "Math Club" "s9@mergington.edu"), st1) ∧
    activities st1 !! "Math Club" = Some a1 ∧
    participants a1 = participants math_club_full ++ ["s9@mergington.edu"] ∧
    max_participants a1 = max_participants math_club_full.
Proof.
  split; [vm_compute; discriminate |].
  apply (signup_ignores_capacity crowded_state "Math Club" "s9@mergington.edu"
           math_club_full (Some demo_token)).
  - exists demo_token, "mrodriguez".
    split; [reflexivity | split; [discriminate | vm_compute; reflexivity]].
  - vm_compute. reflexivity.
  - by_computing.
Defined.

(** ** Signing up, then unregistering *)

(** C9: for an activity in the catalog whose roster has no email twice, an
    email not on that roster and a valid session, a signup followed by an
    unregister of that email for that activity both succeed and give the
    activity its original participants back; the whole state is as before. *)
Theorem signup_unregister_roundtrip (st : State) (name email : string) (a : Activity)
    (c : option string) :
  valid_session st c ->
  activities st !! name = Some a ->
  NoDup (participants a) ->
  email ∉ participants a ->
  ∃ st1 st2 a2,
    signup_for_activity name email c st = (inr (signed_up name email), st1) ∧
    unregister_from_activity name email c st1 = (inr (unregistered name email), st2) ∧
    activities st2 !! name = Some a2 ∧
    participants a2 = participants a ∧
    st2 = st.
Proof.
  intros Hv Ha _ Hn.
  set (st1 := set_roster st name a (participants a ++ [email])).
  assert (valid_session st1 c) as Hv1 by by apply (valid_session_sessions st).
  exists st1, st, a. split_and!; [| | done | done | done].
  - rewrite (signup_run _ _ _ _ Hv), Ha. by rewrite bool_decide_eq_false_2.
  - rewrite (unregister_run _ _ _ _ Hv1). unfold st1.
    rewrite set_roster_lookup. simpl. rewrite (list_remove_app_fresh _ _ Hn).
    by rewrite set_roster_twice, (set_roster_same _ _ _ Ha).
Qed.

Lemma signup_unregister_roundtrip_witness :
  ∃ st1 st2 a2,
    signup_for_activity "Chess Club" "zoe@mergington.edu" (Some demo_token) demo_state
    = (inr (signed_up "Chess Club" "zoe@mergington.edu"), st1) ∧
    unregister_from_activity "Chess Club" "zoe@mergington.edu" (Some demo_token) st1
    = (inr (unregistered "Chess Club" "zoe@mergington.edu"), st2) ∧
    activities st2 !! "Chess Club" = Some a2 ∧
    participants a2 = participants chess_club ∧
    st2 = demo_state.
Proof.
  apply (signup_unregister_roundtrip demo_state "Chess Club" "zoe@mergington.edu"
           chess_club (Some demo_token) demo_valid demo_chess_club).
  - by_computing.
  - by_computing.
Defined.

(** ** Frame *)

Lemma only_roster_changed_refl (name : string) (st : State) :
  only_roster_changed name st st.
Proof.
  split_and!; [done | done |]. by destruct (activities st !! name).
Qed.

Lemma only_roster_changed_set_roster (name : string) (st : State) (a : Activity)
    (ps : list string) :
  activities st !! name = Some a -> only_roster_changed name st (set_roster st name a ps).
Proof.
  intros Ha. split_and!.
  - done.
  - intros other Hne. by apply set_roster_lookup_ne.
  - by rewrite Ha, set_roster_lookup.
Qed.

(** C10: a call of signup or unregister for an activity name, whether it
    succeeds or raises, leaves the registry, every other activity, and the
    description, schedule and [max_participants] of the named activity as
    they were. *)
Theorem roster_calls_frame (st : State) (name email : string) (c : option string) :
  only_roster_changed name st (snd (signup_for_activity name email c st)) ∧
  only_roster_changed name st (snd (unregister_from_activity name email c st)).
Proof.
  split.
  - destruct (signup_cases st name email c) as [-> | (a & Ha & _ & ->)].
    + apply only_roster_changed_refl.
    + by apply only_roster_changed_set_roster.
  - destruct (unregister_cases st name email c) as [-> | (a & ps & Ha & _ & ->)].
    + apply only_roster_changed_refl.
    + by apply only_roster_changed_set_roster.
Qed.

(** ** The registry never holds the empty token *)

Lemma no_empty_token_serve (teachers : gmap string string) (r : request) (st : State) :
  token_drawn r -> sessions st !! "" = None ->
  sessions (serve teachers r st) !! "" = None.
Proof.
  intros Hr Hst. destruct r as [u p tok | c | name email c | name email c]; simpl in *.
  - rewrite login_run. destruct (teachers !! u) as [stored|]; [| done].
    destruct (compare_digest stored p) as [e | [|]]; [done | | done].
    simpl. by rewrite lookup_insert_ne.
  - rewrite logout_run. simpl. unfold forget. destruct c as [tok|]; [| done].
    case_decide; [done |]. by rewrite lookup_delete_ne.
  - by destruct (signup_cases st name email c) as [-> | (a & _ & _ & ->)].
  - by destruct (unregister_cases st name email c) as [-> | (a & ps & _ & _ & ->)].
Qed.

(** So [logout] removes whatever token the cookie carried, the empty one
    included: it was never there. *)
Lemma logout_token_gone (st : State) (tok : string) :
  sessions st !! "" = None -> sessions (snd (logout (Some tok) st)) !! tok = None.
Proof.
  intros Hst. rewrite logout_run. simpl.
  destruct (forget_lookup tok (sessions st)) as [-> | Hf]; [| done].
  unfold forget. by rewrite decide_True.
Qed.

Lemma running_no_empty_token (teachers : gmap string string) (st : State) :
  running teachers st -> sessions st !! "" = None.
Proof.
  induction 1 as [| st r _ IH Hr].
  - done.
  - by apply no_empty_token_serve.
Qed.

Lemma running_reachable (teachers : gmap string string) (st : State) :
  running teachers st -> reachable teachers st.
Proof.
  induction 1 as [| st r _ IH _]; [apply reachable_initial | by apply reachable_serve].
Qed.

(** C6: in every state of a running server and for every cookie value,
    absent included, [logout] succeeds, whether or not the cookie carried a
    valid session, and leaves the catalog alone; afterwards the supplied
    token is not a key of the registry, so the cookie no longer passes
    [require_auth], and a second [logout] with the same cookie succeeds and
    leaves the state the first one left. *)
Theorem logout_ends_session (teachers : gmap string string) (st : State)
    (c : option string) :
  running teachers st ->
  ∃ st1,
    logout c st = (inr logged_out, st1) ∧
    activities st1 = activities st ∧
    match c with
    | Some tok => sessions st1 !! tok = None
    | None => True
    end ∧
    require_auth c st1 = (inl unauthorized, st1) ∧
    logout c st1 = (inr logged_out, st1).
Proof.
  intros Hrun. pose proof (running_no_empty_token teachers st Hrun) as Hst.
  exists (snd (logout c st)).
  assert (match c with
          | Some tok => sessions (snd (logout c st)) !! tok = None
          | None => True
          end) as Hgone.
  { destruct c as [tok|]; [by apply logout_token_gone | done]. }
  split_and!.
  - by rewrite logout_run.
  - by rewrite logout_run.
  - done.
  - apply require_auth_invalid. intros (tok & u & -> & _ & Hu). congruence.
  - rewrite !logout_run. simpl. by rewrite forget_twice.
Qed.

Lemma logout_ends_session_witness :
  ∃ st1,
    logout (Some demo_token) demo_state = (inr logged_out, st1) ∧
    activities st1 = activities demo_state ∧
    sessions st1 !! demo_token = None ∧
    require_auth (Some demo_token) st1 = (inl unauthorized, st1) ∧
    logout (Some demo_token) st1 = (inr logged_out, st1).
Proof.
  apply (logout_ends_session demo_teachers demo_state (Some demo_token)).
  apply (running_serve demo_teachers initial_state
           (Login "mrodriguez" "art123" demo_token)).
  - apply running_initial.
  - simpl. discriminate.
Defined.

(** ** Every way a request ends *)

Lemma serve_respond (teachers : gmap string string) (r : request) (st : State) :
  serve teachers r st = snd (respond teachers r st).
Proof. by destruct r. Qed.

Lemma signup_result (st : State) (name email : string) (c : option string) :
  signup_for_activity name email c st = (inl unauthorized, st) ∨
  signup_for_activity name email c st = (inl not_found, st) ∨
  signup_for_activity name email c st = (inl already_registered, st) ∨
  ∃ a, valid_session st c ∧ activities st !! name = Some a ∧
       (email ∉ participants a) ∧
       signup_for_activity name email c st
       = (inr (signed_up name email), set_roster st name a (participants a ++ [email])).
Proof.
  destruct (valid_session_or st c) as [Hv | Hn].
  - rewrite (signup_run _ _ _ _ Hv).
    destruct (activities st !! name) as [a|] eqn:Ha; [| by right; left].
    case_bool_decide; [by right; right; left |].
    right; right; right. by exists a.
  - left. by apply signup_invalid.
Qed.

Lemma unregister_result (st : State) (name email : string) (c : option string) :
  unregister_from_activity name email c st = (inl unauthorized, st) ∨
  unregister_from_activity name email c st = (inl not_found, st) ∨
  unregister_from_activity name email c st = (inl not_registered, st) ∨
  ∃ a ps, valid_session st c ∧ activities st !! name = Some a ∧
          list_remove email (participants a) = Some ps ∧
          unregister_from_activity name email c st
          = (inr (unregistered name email), set_roster st name a ps).
Proof.
  destruct (valid_session_or st c) as [Hv | Hn].
  - rewrite (unregister_run _ _ _ _ Hv).
    destruct (activities st !! name) as [a|] eqn:Ha; [| by right; left].
    destruct (list_remove email (participants a)) as [ps|] eqn:Hr;
      [| by right; right; left].
    right; right; right. by exists a, ps.
  - left. by apply unregister_invalid.
Qed.

Lemma login_result (teachers : gmap string string) (u p tok : string) (st : State) :
  login teachers u p tok st = (inl invalid_credentials, st) ∨
  login teachers u p tok st
  = (inl (TypeError "comparing strings with non-ASCII characters is not supported"), st) ∨
  (teachers !! u = Some p ∧
   login teachers u p tok st
   = (inr (logged_in u tok), mkState (<[tok := u]> (sessions st)) (activities st))).
Proof.
  rewrite login_run. destruct (teachers !! u) as [stored|] eqn:Ht; [| by left].
  unfold compare_digest. destruct (is_ascii stored && is_ascii p); [| by right; left].
  destruct (String.eqb_spec stored p) as [-> | Hne]; [| by left].
  right; right. done.
Qed.

(** The handlers raise nothing but what they raise on purpose, except for
    the [TypeError] of [login]: the lookups [sessions[...]],
    [activities[...]], [teachers[...]], the [del] and the [list.remove] are
    all behind a test that makes them safe, and [logout] never raises. *)
Theorem respond_raises_only (teachers : gmap string string) (r : request) (st : State) :
  match r, fst (respond teachers r st) with
  | _, inr _ => True
  | Login _ _ _, inl e =>
      e = invalid_credentials ∨
      e = TypeError "comparing strings with non-ASCII characters is not supported"
  | Logout _, inl _ => False
  | Signup _ _ _, inl e => e = unauthorized ∨ e = not_found ∨ e = already_registered
  | Unregister _ _ _, inl e => e = unauthorized ∨ e = not_found ∨ e = not_registered
  end.
Proof.
  destruct r as [u p tok | c | name email c | name email c]; simpl.
  - destruct (login_result teachers u p tok st) as [-> | [-> | [_ ->]]]; simpl; auto.
  - by rewrite logout_run.
  - destruct (signup_result st name email c) as [-> | [-> | [-> | (a & _ & _ & _ & ->)]]];
      simpl; auto.
  - destruct (unregister_result st name email c)
      as [-> | [-> | [-> | (a & ps & _ & _ & _ & ->)]]]; simpl; auto.
Qed.

(** A request that ends in an exception has changed nothing: each handler
    does its one mutation after its last [raise]. *)
Theorem respond_raise_unchanged (teachers : gmap string string) (r : request)
    (st : State) (e : exception) :
  fst (respond teachers r st) = inl e -> snd (respond teachers r st) = st.
Proof.
  destruct r as [u p tok | c | name email c | name email c]; simpl.
  - by destruct (login_result teachers u p tok st) as [-> | [-> | [_ ->]]].
  - by rewrite logout_run.
  - by destruct (signup_result st name email c)
      as [-> | [-> | [-> | (a & _ & _ & _ & ->)]]].
  - by destruct (unregister_result st name email c)
      as [-> | [-> | [-> | (a & ps & _ & _ & _ & ->)]]].
Qed.

Lemma respond_raise_unchanged_witness :
  snd (respond demo_teachers
         (Signup "Chess Club" "michael@mergington.edu" (Some demo_token)) demo_state)
  = demo_state.
Proof.
  apply (respond_raise_unchanged demo_teachers
           (Signup "Chess Club" "michael@mergington.edu" (Some demo_token))
           demo_state already_registered).
  vm_compute. reflexivity.
Defined.

(** ** [auth_status] *)

Lemma auth_status_run (st : State) (c : option string) :
  auth_status c st =
  (inr match c with
       | Some tok =>
           if decide (tok = "") then not_authenticated
           else match sessions st !! tok with
                | Some username => authenticated_as username
                | None => not_authenticated
                end
       | None => not_authenticated
       end, st).
Proof.
  unfold auth_status, bind, read, getitem. destruct c as [tok|]; [| done].
  case_decide as Htok.
  - subst tok. done.
  - assert (truthy (Some tok) = true) as -> by by apply truthy_Some.
    destruct (sessions st !! tok) as [u|] eqn:Hs.
    + rewrite (contains_Some _ _ _ Hs). simpl. by rewrite Hs.
    + by rewrite (contains_None _ _ Hs).
Qed.

(** [auth_status] never raises and changes nothing, and it answers as
    [require_auth] decides: authenticated as a username exactly when
    [require_auth] returns that username, not authenticated exactly when
    [require_auth] raises 401. *)
Theorem auth_status_agrees (st : State) (c : option string) :
  ∃ rp,
    auth_status c st = (inr rp, st) ∧
    (∀ username,
       rp = authenticated_as username ↔ require_auth c st = (inr username, st)) ∧
    (rp = not_authenticated ↔ require_auth c st = (inl unauthorized, st)).
Proof.
  rewrite auth_status_run, require_auth_run. eexists. split; [done |].
  destruct c as [tok|].
  - case_decide.
    + split; [intros u |]; split; done.
    + destruct (sessions st !! tok) as [v|].
      * split; [intros u |]; split; intros [=]; by subst.
      * split; [intros u |]; split; done.
  - split; [intros u |]; split; done.
Qed.

(** ** Sessions: how they start, last and end *)

Lemma login_success (teachers : gmap string string) (u p tok : string)
    (st st1 : State) (rp : reply) :
  login teachers u p tok st = (inr rp, st1) ->
  teachers !! u = Some p ∧ rp = logged_in u tok ∧
  st1 = mkState (<[tok := u]> (sessions st)) (activities st).
Proof.
  intros Hl.
  destruct (login_result teachers u p tok st) as [H | [H | [Ht H]]];
    rewrite H in Hl; [done | done |].
  injection Hl as <- <-. done.
Qed.

Lemma signup_sessions (st : State) (name email : string) (c : option string) :
  sessions (snd (signup_for_activity name email c st)) = sessions st.
Proof. by destruct (signup_cases st name email c) as [-> | (a & _ & _ & ->)]. Qed.

Lemma unregister_sessions (st : State) (name email : string) (c : option string) :
  sessions (snd (unregister_from_activity name email c st)) = sessions st.
Proof. by destruct (unregister_cases st name email c) as [-> | (a & ps & _ & _ & ->)]. Qed.

Lemma require_auth_lookup (st st' : State) (tok username : string) :
  sessions st' !! tok = sessions st !! tok ->
  require_auth (Some tok) st = (inr username, st) ->
  require_auth (Some tok) st' = (inr username, st').
Proof.
  rewrite !require_auth_run. intros ->. case_decide; [done |].
  destruct (sessions st !! tok); [| done]. by intros [= ->].
Qed.

(** A successful [login] was given the stored password of the username;
    it sets the cookie to the drawn token, and from then on that token, if
    not empty, passes [require_auth] as that username and [auth_status]
    reports it. *)
Theorem login_opens_session (teachers : gmap string string) (u p tok : string)
    (st st1 : State) (rp : reply) :
  login teachers u p tok st = (inr rp, st1) ->
  tok ≠ "" ->
  teachers !! u = Some p ∧
  cookie rp = SetCookie "session_token" tok true 86400 ∧
  require_auth (Some tok) st1 = (inr u, st1) ∧
  auth_status (Some tok) st1 = (inr (authenticated_as u), st1).
Proof.
  intros Hl Hne. destruct (login_success _ _ _ _ _ _ _ Hl) as (Ht & -> & ->).
  split_and!; [done | done | |].
  - rewrite require_auth_run, decide_False by done. simpl.
    by rewrite lookup_insert_eq.
  - rewrite auth_status_run, decide_False by done. simpl.
    by rewrite lookup_insert_eq.
Qed.

Lemma login_opens_session_witness :
  demo_teachers !! "mrodriguez" = Some "art123" ∧
  cookie (logged_in "mrodriguez" demo_token)
  = SetCookie "session_token" demo_token true 86400 ∧
  require_auth (Some demo_token) demo_state = (inr "mrodriguez", demo_state) ∧
  auth_status (Some demo_token) demo_state
  = (inr (authenticated_as "mrodriguez"), demo_state).
Proof.
  apply (login_opens_session demo_teachers "mrodriguez" "art123" demo_token
           initial_state demo_state (logged_in "mrodriguez" demo_token)).
  - vm_compute. reflexivity.
  - discriminate.
Defined.

(** Logging in and then out with the token just drawn gives the state
    back, when the token was not a key of the registry and is not empty. *)
Theorem login_logout_roundtrip (teachers : gmap string string) (u p tok : string)
    (st st1 : State) (rp : reply) :
  login teachers u p tok st = (inr rp, st1) ->
  tok ≠ "" ->
  sessions st !! tok = None ->
  logout (Some tok) st1 = (inr logged_out, st).
Proof.
  intros Hl Hne Hfresh. destruct (login_success _ _ _ _ _ _ _ Hl) as (_ & _ & ->).
  rewrite logout_run. unfold forget. rewrite decide_False by done. simpl.
  rewrite delete_insert_eq, (delete_id _ _ Hfresh). by destruct st.
Qed.

Lemma login_logout_roundtrip_witness :
  logout (Some demo_token) demo_state = (inr logged_out, initial_state).
Proof.
  apply (login_logout_roundtrip demo_teachers "mrodriguez" "art123" demo_token
           initial_state demo_state (logged_in "mrodriguez" demo_token)).
  - vm_compute. reflexivity.
  - discriminate.
  - vm_compute. reflexivity.
Defined.

(** [login] does not look whether the drawn token is already a key: if it
    is, the token is bound to the new username, the registry keeps its
    size, and the session that token stood for is now the new user's. *)
Theorem login_rebinds_token (teachers : gmap string string) (u p tok v : string)
    (st st1 : State) (rp : reply) :
  login teachers u p tok st = (inr rp, st1) ->
  sessions st !! tok = Some v ->
  sessions st1 !! tok = Some u ∧ size (sessions st1) = size (sessions st).
Proof.
  intros Hl Hv. destruct (login_success _ _ _ _ _ _ _ Hl) as (_ & _ & ->). simpl.
  split; [apply lookup_insert_eq | apply map_size_insert_Some; by exists v].
Qed.

Lemma login_rebinds_token_witness :
  sessions (snd (login demo_teachers "mrodriguez" "art123" demo_token
                   (mkState {[ demo_token := "mchen" ]} activities_seed))) !! demo_token
  = Some "mrodriguez" ∧
  size (sessions (snd (login demo_teachers "mrodriguez" "art123" demo_token
                         (mkState {[ demo_token := "mchen" ]} activities_seed))))
  = size (sessions (mkState {[ demo_token := "mchen" ]} activities_seed)).
Proof.
  apply (login_rebinds_token demo_teachers "mrodriguez" "art123" demo_token "mchen"
           (mkState {[ demo_token := "mchen" ]} activities_seed) _
           (logged_in "mrodriguez" demo_token)).
  - vm_compute. reflexivity.
  - vm_compute. reflexivity.
Defined.

(** A session lasts: a cookie that passes [require_auth] as a username
    still does, as the same username, after any request other than a logout
    with that cookie or a login drawing the same token.  Nothing expires. *)
Theorem session_lasts (teachers : gmap string string) (r : request) (st : State)
    (c : option string) (username : string) :
  require_auth c st = (inr username, st) ->
  ¬ touches r c ->
  require_auth c (serve teachers r st) = (inr username, serve teachers r st).
Proof.
  intros Ha Hr. destruct c as [tok|]; [| by rewrite require_auth_run in Ha].
  apply (require_auth_lookup st); [| done].
  destruct r as [u p tok' | c' | name email c' | name email c']; simpl in *.
  - destruct (login_result teachers u p tok' st) as [-> | [-> | [_ ->]]];
      [done | done |].
    simpl. apply lookup_insert_ne. congruence.
  - rewrite logout_run. simpl. unfold forget. destruct c' as [tok'|]; [| done].
    case_decide; [done |]. apply lookup_delete_ne. congruence.
  - by rewrite signup_sessions.
  - by rewrite unregister_sessions.
Qed.

Lemma session_lasts_witness :
  require_auth (Some demo_token)
    (serve demo_teachers (Logout (Some other_token))
       (serve demo_teachers (Login "mrodriguez" "art123" other_token) demo_state))
  = (inr "mrodriguez",
     serve demo_teachers (Logout (Some other_token))
       (serve demo_teachers (Login "mrodriguez" "art123" other_token) demo_state)).
Proof.
  apply (session_lasts demo_teachers (Logout (Some other_token))
           (serve demo_teachers (Login "mrodriguez" "art123" other_token) demo_state)
           (Some demo_token) "mrodriguez").
  - apply (session_lasts demo_teachers (Login "mrodriguez" "art123" other_token)
             demo_state (Some demo_token) "mrodriguez").
    + vm_compute. reflexivity.
    + simpl. discriminate.
  - simpl. discriminate.
Defined.

Lemma serve_sessions_lookup (teachers : gmap string string) (r : request) (st : State)
    (tok username : string) :
  sessions (serve teachers r st) !! tok = Some username ->
  sessions st !! tok = Some username ∨
  ∃ p, r = Login username p tok ∧ teachers !! username = Some p.
Proof.
  destruct r as [u p tok' | c' | name email c' | name email c']; simpl.
  - destruct (login_result teachers u p tok' st) as [-> | [-> | [Ht ->]]];
      [by left | by left |].
    simpl. destruct (decide (tok' = tok)) as [-> | Hne].
    + rewrite lookup_insert_eq. intros [= ->]. right. by exists p.
    + rewrite lookup_insert_ne by done. by left.
  - rewrite logout_run. simpl. unfold forget. destruct c' as [tok'|]; [| by left].
    case_decide; [by left |]. intros Hd. left.
    apply lookup_delete_Some in Hd. by destruct Hd.
  - rewrite signup_sessions. by left.
  - rewrite unregister_sessions. by left.
Qed.

(** A session is only ever made by a login with the right password: if
    after a request a token maps to a username, it did so before, or the
    request was a login of that username with the password [teachers]
    stores, drawing that token. *)
Theorem session_origin (teachers : gmap string string) (r : request) (st : State)
    (tok username : string) :
  sessions (serve teachers r st) !! tok = Some username ->
  sessions st !! tok = Some username ∨
  ∃ p, r = Login username p tok ∧ teachers !! username = Some p.
Proof. apply serve_sessions_lookup. Qed.

Lemma session_origin_witness :
  sessions initial_state !! demo_token = Some "mrodriguez" ∨
  ∃ p, Login "mrodriguez" "art123" demo_token = Login "mrodriguez" p demo_token ∧
       demo_teachers !! "mrodriguez" = Some p.
Proof.
  apply (session_origin demo_teachers (Login "mrodriguez" "art123" demo_token)
           initial_state demo_token "mrodriguez").
  vm_compute. reflexivity.
Defined.

(** In every reachable state each session belongs to a username that
    [teachers] lists. *)
Theorem reachable_sessions_known (teachers : gmap string string) (st : State) :
  reachable teachers st ->
  ∀ tok username, sessions st !! tok = Some username -> is_Some (teachers !! username).
Proof.
  induction 1 as [| st r _ IH]; intros tok username Hs.
  - unfold initial_state in Hs. simpl in Hs. by rewrite lookup_empty in Hs.
  - destruct (serve_sessions_lookup teachers r st tok username Hs)
      as [Hb | (p & _ & Hp)].
    + by apply (IH tok).
    + by exists p.
Qed.

Lemma reachable_sessions_known_witness : is_Some (demo_teachers !! "mrodriguez").
Proof.
  apply (reachable_sessions_known demo_teachers demo_state demo_reachable
           demo_token "mrodriguez").
  vm_compute. reflexivity.
Defined.

(** ** The catalog: what is on offer never changes *)

Lemma same_offer_refl (acts : gmap string Activity) : same_offer acts acts.
Proof. intros name. by destruct (acts !! name). Qed.

Lemma same_offer_set_roster (acts : gmap string Activity) (st : State) (name : string)
    (a : Activity) (ps : list string) :
  same_offer acts (activities st) -> activities st !! name = Some a ->
  same_offer acts (activities (set_roster st name a ps)).
Proof.
  intros Hso Ha other. specialize (Hso other).
  destruct (decide (other = name)) as [-> | Hne].
  - rewrite set_roster_lookup. rewrite Ha in Hso. by destruct (acts !! name).
  - by rewrite set_roster_lookup_ne.
Qed.

Lemma same_offer_serve (teachers : gmap string string) (acts : gmap string Activity)
    (r : request) (st : State) :
  same_offer acts (activities st) -> same_offer acts (activities (serve teachers r st)).
Proof.
  intros Hso. destruct r as [u p tok | c | name email c | name email c]; simpl.
  - by rewrite login_activities.
  - by rewrite logout_activities.
  - destruct (signup_cases st name email c) as [-> | (a & Ha & _ & ->)]; [done |].
    by apply same_offer_set_roster.
  - destruct (unregister_cases st name email c) as [-> | (a & ps & Ha & _ & ->)];
      [done |].
    by apply same_offer_set_roster.
Qed.

(** No request creates, deletes or renames an activity, or changes a
    description, a schedule or a [max_participants]: in every reachable
    state the catalog has the names of the seed catalog and, under each, the
    seed's description, schedule and capacity. *)
Theorem reachable_same_offer (teachers : gmap string string) (st : State) :
  reachable teachers st -> same_offer activities_seed (activities st).
Proof.
  induction 1 as [| st r _ IH].
  - apply same_offer_refl.
  - by apply same_offer_serve.
Qed.

Lemma reachable_same_offer_witness : same_offer activities_seed (activities busy_state).
Proof.
  apply (reachable_same_offer demo_teachers busy_state).
  apply reachable_run. apply reachable_initial.
Defined.

(** The catalog changes only under a valid session: a request after which
    [activities] differs is a signup or an unregister, for an activity in the
    catalog, with a cookie that passes [require_auth]. *)
Theorem catalog_guard (teachers : gmap string string) (r : request) (st : State) :
  activities (serve teachers r st) ≠ activities st ->
  ∃ name email c,
    (r = Signup name email c ∨ r = Unregister name email c) ∧
    valid_session st c ∧ is_Some (activities st !! name).
Proof.
  destruct r as [u p tok | c | name email c | name email c]; simpl; intros Hne.
  - by rewrite login_activities in Hne.
  - by rewrite logout_activities in Hne.
  - destruct (signup_result st name email c)
      as [H | [H | [H | (a & Hv & Ha & _ & _)]]]; [by rewrite H in Hne.. |].
    exists name, email, c. split_and!; [by left | done | by exists a].
  - destruct (unregister_result st name email c)
      as [H | [H | [H | (a & ps & Hv & Ha & _ & _)]]]; [by rewrite H in Hne.. |].
    exists name, email, c. split_and!; [by right | done | by exists a].
Qed.

Lemma catalog_guard_witness :
  ∃ name email c,
    (Signup "Chess Club" "zoe@mergington.edu" (Some demo_token) = Signup name email c ∨
     Signup "Chess Club" "zoe@mergington.edu" (Some demo_token) = Unregister name email c) ∧
    valid_session demo_state c ∧ is_Some (activities demo_state !! name).
Proof.
  apply (catalog_guard demo_teachers
           (Signup "Chess Club" "zoe@mergington.edu" (Some demo_token)) demo_state).
  intros Heq. apply (f_equal (fun acts => participants <$> acts !! "Chess Club")) in Heq.
  vm_compute in Heq. discriminate.
Defined.

(** ** Rosters: removing, re-registering, repeating *)

Lemma list_remove_NoDup_absent (x : string) (l r : list string) :
  list_remove x l = Some r -> NoDup l -> x ∉ r.
Proof.
  intros Hr Hl. apply list_count_0.
  destruct (list_remove_count x l r Hr) as (Hx & _ & _).
  apply list_count_NoDup with (x := x) in Hl. lia.
Qed.

Lemma list_remove_middle (x : string) (l1 l2 : list string) :
  x ∉ l1 -> list_remove x (l1 ++ x :: l2) = Some (l1 ++ l2).
Proof.
  induction l1 as [|y l1 IH]; intros Hn; simpl.
  - by rewrite decide_True.
  - apply not_elem_of_cons in Hn as [Hxy Hn].
    rewrite decide_False by congruence. by rewrite IH.
Qed.

(** On a roster without duplicates, as every reachable roster is, a
    successful unregister leaves no occurrence of the email, so the same
    request repeated raises 400 "not signed up" and changes nothing. *)
Theorem unregister_then_absent (st : State) (name email : string) (a : Activity)
    (c : option string) :
  valid_session st c ->
  activities st !! name = Some a ->
  NoDup (participants a) ->
  email ∈ participants a ->
  ∃ st1 a1,
    unregister_from_activity name email c st = (inr (unregistered name email), st1) ∧
    activities st1 !! name = Some a1 ∧
    (email ∉ participants a1) ∧
    unregister_from_activity name email c st1 = (inl not_registered, st1).
Proof.
  intros Hv Ha Hnd Hin.
  destruct (list_remove_Some _ _ Hin) as (l1 & l2 & _ & _ & Hr).
  pose proof (list_remove_NoDup_absent _ _ _ Hr Hnd) as Habs.
  exists (set_roster st name a (l1 ++ l2)), (with_participants a (l1 ++ l2)).
  assert (valid_session (set_roster st name a (l1 ++ l2)) c) as Hv1
    by by apply (valid_session_sessions st).
  split_and!.
  - by rewrite (unregister_run _ _ _ _ Hv), Ha, Hr.
  - apply set_roster_lookup.
  - done.
  - rewrite (unregister_run _ _ _ _ Hv1), set_roster_lookup. simpl.
    apply list_remove_None in Habs. by rewrite Habs.
Qed.

Lemma unregister_then_absent_witness :
  ∃ st1 a1,
    unregister_from_activity "Chess Club" "daniel@mergington.edu" (Some demo_token)
      demo_state
    = (inr (unregistered "Chess Club" "daniel@mergington.edu"), st1) ∧
    activities st1 !! "Chess Club" = Some a1 ∧
    ("daniel@mergington.edu" ∉ participants a1) ∧
    unregister_from_activity "Chess Club" "daniel@mergington.edu" (Some demo_token) st1
    = (inl not_registered, st1).
Proof.
  apply (unregister_then_absent demo_state "Chess Club" "daniel@mergington.edu"
           chess_club (Some demo_token) demo_valid demo_chess_club).
  - by_computing.
  - by_computing.
Defined.

(** Unregistering a participant and signing the same email up again does
    not restore the roster: the email moves from its place to the end. *)
Theorem reregister_moves_last (st : State) (name email : string) (a : Activity)
    (c : option string) (l1 l2 : list string) :
  valid_session st c ->
  activities st !! name = Some a ->
  participants a = l1 ++ email :: l2 ->
  email ∉ l1 ->
  email ∉ l2 ->
  ∃ st1 st2 a2,
    unregister_from_activity name email c st = (inr (unregistered name email), st1) ∧
    signup_for_activity name email c st1 = (inr (signed_up name email), st2) ∧
    activities st2 !! name = Some a2 ∧
    participants a2 = l1 ++ l2 ++ [email].
Proof.
  intros Hv Ha Hl Hn1 Hn2.
  set (st1 := set_roster st name a (l1 ++ l2)).
  assert (valid_session st1 c) as Hv1 by by apply (valid_session_sessions st).
  exists st1, (set_roster st1 name (with_participants a (l1 ++ l2)) ((l1 ++ l2) ++ [email])),
    (with_participants (with_participants a (l1 ++ l2)) ((l1 ++ l2) ++ [email])).
  split_and!.
  - by rewrite (unregister_run _ _ _ _ Hv), Ha, Hl, (list_remove_middle _ _ _ Hn1).
  - rewrite (signup_run _ _ _ _ Hv1). unfold st1. rewrite set_roster_lookup. simpl.
    rewrite bool_decide_eq_false_2; [done |].
    apply not_elem_of_app. done.
  - apply set_roster_lookup.
  - simpl. by rewrite <- app_assoc.
Qed.

Lemma reregister_moves_last_witness :
  ∃ st1 st2 a2,
    unregister_from_activity "Chess Club" "michael@mergington.edu" (Some demo_token)
      demo_state
    = (inr (unregistered "Chess Club" "michael@mergington.edu"), st1) ∧
    signup_for_activity "Chess Club" "michael@mergington.edu" (Some demo_token) st1
    = (inr (signed_up "Chess Club" "michael@mergington.edu"), st2) ∧
    activities st2 !! "Chess Club" = Some a2 ∧
    participants a2 = [] ++ ["daniel@mergington.edu"] ++ ["michael@mergington.edu"].
Proof.
  apply (reregister_moves_last demo_state "Chess Club" "michael@mergington.edu"
           chess_club (Some demo_token) [] ["daniel@mergington.edu"]
           demo_valid demo_chess_club).
  - reflexivity.
  - by_computing.
  - by_computing.
Defined.

(** A signup repeated at once never succeeds and changes nothing: whatever
    the first call did (401, 404, 400 or success), the same call on the state
    it left raises. *)
Theorem signup_repeat_raises (st : State) (name email : string) (c : option string) :
  ∃ e,
    signup_for_activity name email c (snd (signup_for_activity name email c st))
    = (inl e, snd (signup_for_activity name email c st)).
Proof.
  destruct (signup_result st name email c)
    as [H | [H | [H | (a & Hv & Ha & Hn & H)]]]; rewrite H; simpl.
  - exists unauthorized. done.
  - exists not_found. done.
  - exists already_registered. done.
  - exists already_registered.
    assert (valid_session (set_roster st name a (participants a ++ [email])) c) as Hv1
      by by apply (valid_session_sessions st).
    rewrite (signup_run _ _ _ _ Hv1), set_roster_lookup. simpl.
    rewrite bool_decide_eq_true_2; [done |].
    apply elem_of_app. right. by apply list_elem_of_singleton.
Qed.

(** ** Requests for different activities *)

Lemma roster_serve_frame (teachers : gmap string string) (r : request) (n : string)
    (st : State) :
  roster_name r = Some n ->
  sessions (serve teachers r st) = sessions st ∧
  ∀ other, other ≠ n -> activities (serve teachers r st) !! other = activities st !! other.
Proof.
  destruct r as [u p tok | c | name email c | name email c]; simpl; intros [= <-].
  - split; [apply signup_sessions |]. intros other Hne.
    destruct (signup_cases st name email c) as [-> | (a & _ & _ & ->)]; [done |].
    by apply set_roster_lookup_ne.
  - split; [apply unregister_sessions |]. intros other Hne.
    destruct (unregister_cases st name email c) as [-> | (a & ps & _ & _ & ->)];
      [done |].
    by apply set_roster_lookup_ne.
Qed.

(** What a signup or unregister does depends on the registry and on the
    named activity only. *)
Lemma roster_serve_congr (teachers : gmap string string) (r : request) (n : string)
    (st st' : State) :
  roster_name r = Some n ->
  sessions st' = sessions st ->
  activities st' !! n = activities st !! n ->
  (serve teachers r st = st ∧ serve teachers r st' = st') ∨
  ∃ a ps, serve teachers r st = set_roster st n a ps ∧
          serve teachers r st' = set_roster st' n a ps.
Proof.
  intros Hr Hs Ha.
  destruct r as [u p tok | c | name email c | name email c]; simpl in *;
    try done; injection Hr as ->.
  - destruct (valid_session_or st c) as [Hv | Hn].
    + assert (valid_session st' c) as Hv' by by apply (valid_session_sessions st).
      rewrite (signup_run _ _ _ _ Hv), (signup_run _ _ _ _ Hv'), Ha.
      destruct (activities st !! n) as [a|]; [| by left].
      case_bool_decide; [by left | right]. by exists a, (participants a ++ [email]).
    + assert (¬ valid_session st' c) as Hn'.
      { intros Hv'. apply Hn. by apply (valid_session_sessions st'). }
      rewrite (signup_invalid _ _ _ _ Hn), (signup_invalid _ _ _ _ Hn'). by left.
  - destruct (valid_session_or st c) as [Hv | Hn].
    + assert (valid_session st' c) as Hv' by by apply (valid_session_sessions st).
      rewrite (unregister_run _ _ _ _ Hv), (unregister_run _ _ _ _ Hv'), Ha.
      destruct (activities st !! n) as [a|]; [| by left].
      destruct (list_remove email (participants a)) as [ps|]; [right | by left].
      by exists a, ps.
    + assert (¬ valid_session st' c) as Hn'.
      { intros Hv'. apply Hn. by apply (valid_session_sessions st'). }
      rewrite (unregister_invalid _ _ _ _ Hn), (unregister_invalid _ _ _ _ Hn').
      by left.
Qed.

(** Signups and unregisters that name different activities do not
    interfere: served in either order they leave the same state. *)
Theorem roster_requests_commute (teachers : gmap string string) (r1 r2 : request)
    (n1 n2 : string) (st : State) :
  roster_name r1 = Some n1 ->
  roster_name r2 = Some n2 ->
  n1 ≠ n2 ->
  serve teachers r2 (serve teachers r1 st) = serve teachers r1 (serve teachers r2 st).
Proof.
  intros H1 H2 Hne.
  destruct (roster_serve_frame teachers r1 n1 st H1) as [Hs1 Ha1].
  destruct (roster_serve_frame teachers r2 n2 st H2) as [Hs2 Ha2].
  destruct (roster_serve_congr teachers r1 n1 st (serve teachers r2 st) H1 Hs2
              (Ha2 n1 Hne))
    as [[E1 E1'] | (a1 & p1 & E1 & E1')];
  destruct (roster_serve_congr teachers r2 n2 st (serve teachers r1 st) H2 Hs1
              (Ha1 n2 (not_eq_sym Hne)))
    as [[E2 E2'] | (a2 & p2 & E2 & E2')].
  - by rewrite E2', E1', E1, E2.
  - by rewrite E1', E2', E1.
  - by rewrite E2', E1', E2.
  - rewrite E2', E1', E1, E2. unfold set_roster. simpl. f_equal.
    by apply insert_insert_ne.
Qed.

Lemma roster_requests_commute_witness :
  serve demo_teachers (Unregister "Math Club" "james@mergington.edu" (Some demo_token))
    (serve demo_teachers (Signup "Chess Club" "zoe@mergington.edu" (Some demo_token))
       demo_state)
  = serve demo_teachers (Signup "Chess Club" "zoe@mergington.edu" (Some demo_token))
      (serve demo_teachers
         (Unregister "Math Club" "james@mergington.edu" (Some demo_token)) demo_state).
Proof.
  apply (roster_requests_commute demo_teachers
           (Signup "Chess Club" "zoe@mergington.edu" (Some demo_token))
           (Unregister "Math Club" "james@mergington.edu" (Some demo_token))
           "Chess Club" "Math Club" demo_state).
  - reflexivity.
  - reflexivity.
  - discriminate.
Defined.

(** ** [load_teachers] *)

Lemma teachers_comprehension_keeps (ts : list (gmap string string))
    (built m : gmap string string) (u : string) :
  teachers_comprehension ts built = inr m ->
  Forall (fun t => t !! "username" ≠ Some u) ts ->
  m !! u = built !! u.
Proof.
  revert built. induction ts as [|t ts IH]; intros built Hc Hall; simpl in Hc.
  - by injection Hc as <-.
  - apply Forall_cons in Hall as [Ht Hall]. unfold subscript in Hc.
    destruct (t !! "username") as [u'|]; [| done].
    destruct (t !! "password") as [p'|]; [| done].
    rewrite (IH _ Hc Hall). apply lookup_insert_ne. congruence.
Qed.

Lemma teachers_comprehension_last (l1 l2 : list (gmap string string))
    (t built m : gmap string string) (u p : string) :
  teachers_comprehension (l1 ++ t :: l2) built = inr m ->
  t !! "username" = Some u ->
  t !! "password" = Some p ->
  Forall (fun t' => t' !! "username" ≠ Some u) l2 ->
  m !! u = Some p.
Proof.
  revert built. induction l1 as [|t0 l1 IH]; intros built Hc Hu Hp Hall; simpl in Hc.
  - unfold subscript in Hc. rewrite Hu, Hp in Hc.
    rewrite (teachers_comprehension_keeps _ _ _ _ Hc Hall). apply lookup_insert_eq.
  - unfold subscript in Hc.
    destruct (t0 !! "username") as [u'|]; [| done].
    destruct (t0 !! "password") as [p'|]; [| done].
    by apply (IH _ Hc).
Qed.

Lemma teachers_comprehension_from (ts : list (gmap string string))
    (built m : gmap string string) (u p : string) :
  teachers_comprehension ts built = inr m ->
  m !! u = Some p ->
  built !! u = Some p ∨
  ∃ t, t ∈ ts ∧ t !! "username" = Some u ∧ t !! "password" = Some p.
Proof.
  revert built. induction ts as [|t ts IH]; intros built Hc Hm; simpl in Hc.
  - injection Hc as <-. by left.
  - unfold subscript in Hc.
    destruct (t !! "username") as [u'|] eqn:Hu'; [| done].
    destruct (t !! "password") as [p'|] eqn:Hp'; [| done].
    destruct (IH _ Hc Hm) as [Hb | (t' & Hin & Ht')].
    + destruct (decide (u' = u)) as [-> | Hne].
      * rewrite lookup_insert_eq in Hb. injection Hb as ->.
        right. exists t. split; [left | done].
      * rewrite lookup_insert_ne in Hb by done. by left.
    + right. exists t'. split; [by right | done].
Qed.

Lemma teachers_comprehension_ok (ts : list (gmap string string))
    (built : gmap string string) :
  Forall (fun t => is_Some (t !! "username") ∧ is_Some (t !! "password")) ts ->
  ∃ m, teachers_comprehension ts built = inr m.
Proof.
  revert built. induction ts as [|t ts IH]; intros built Hall; simpl.
  - by exists built.
  - apply Forall_cons in Hall as [[[u Hu] [p Hp]] Hall].
    unfold subscript. rewrite Hu, Hp. by apply IH.
Qed.

Lemma teachers_comprehension_wf (ts : list (gmap string string))
    (built m : gmap string string) :
  teachers_comprehension ts built = inr m ->
  Forall (fun t => is_Some (t !! "username") ∧ is_Some (t !! "password")) ts.
Proof.
  revert built. induction ts as [|t ts IH]; intros built Hc; simpl in Hc.
  - constructor.
  - unfold subscript in Hc.
    destruct (t !! "username") as [u|] eqn:Hu; [| done].
    destruct (t !! "password") as [p|] eqn:Hp; [| done].
    constructor; [| by apply (IH _ Hc)].
    split; [by exists u | by exists p].
Qed.

Lemma teachers_comprehension_error (ts : list (gmap string string))
    (built : gmap string string) (e : exception) :
  teachers_comprehension ts built = inl e ->
  (e = KeyError (Some "username") ∨ e = KeyError (Some "password")) ∧
  ¬ Forall (fun t => is_Some (t !! "username") ∧ is_Some (t !! "password")) ts.
Proof.
  revert built. induction ts as [|t ts IH]; intros built Hc; simpl in Hc; [done |].
  unfold subscript in Hc.
  destruct (t !! "username") as [u|] eqn:Hu.
  - destruct (t !! "password") as [p|] eqn:Hp.
    + destruct (IH _ Hc) as [He Hn]. split; [done |].
      intros Hall. apply Forall_cons in Hall as [_ Hall]. done.
    + injection Hc as <-. split; [by right |].
      intros Hall. apply Forall_cons in Hall as [[_ [p Hp']] _]. congruence.
  - injection Hc as <-. split; [by left |].
    intros Hall. apply Forall_cons in Hall as [[[u Hu'] _] _]. congruence.
Qed.

(** When a username is listed more than once, the last entry decides: the
    loaded password of a username is the password of the last entry with
    that username. *)
Theorem load_teachers_last_wins (data : gmap string (list (gmap string string)))
    (m t : gmap string string) (l1 l2 : list (gmap string string)) (u p : string) :
  load_teachers data = inr m ->
  data !! "teachers" = Some (l1 ++ t :: l2) ->
  t !! "username" = Some u ->
  t !! "password" = Some p ->
  Forall (fun t' => t' !! "username" ≠ Some u) l2 ->
  m !! u = Some p.
Proof.
  unfold load_teachers, subscript. intros Hl Hd Hu Hp Hall. rewrite Hd in Hl.
  by apply (teachers_comprehension_last l1 l2 t ∅ m u p).
Qed.

Lemma load_teachers_last_wins_witness :
  ∃ m, load_teachers demo_document = inr m ∧ m !! "mrodriguez" = Some "paint789".
Proof.
  exists {[ "mrodriguez" := "paint789"; "mchen" := "chess456" ]}.
  assert (load_teachers demo_document
          = inr {[ "mrodriguez" := "paint789"; "mchen" := "chess456" ]}) as Hl
    by (vm_compute; reflexivity).
  split; [exact Hl |].
  apply (load_teachers_last_wins demo_document _
           {[ "username" := "mrodriguez"; "password" := "paint789" ]}
           [ {[ "username" := "mrodriguez"; "password" := "art123" ]};
             {[ "username" := "mchen"; "password" := "chess456" ]} ] []
           "mrodriguez" "paint789" Hl).
  - vm_compute. reflexivity.
  - vm_compute. reflexivity.
  - vm_compute. reflexivity.
  - constructor.
Defined.

(** Every loaded credential is in the document: a username maps to a
    password only if some entry has that username and that password. *)
Theorem load_teachers_from_document (data : gmap string (list (gmap string string)))
    (m : gmap string string) (u p : string) :
  load_teachers data = inr m ->
  m !! u = Some p ->
  ∃ ts t, data !! "teachers" = Some ts ∧ t ∈ ts ∧
          t !! "username" = Some u ∧ t !! "password" = Some p.
Proof.
  unfold load_teachers, subscript. intros Hl Hm.
  destruct (data !! "teachers") as [ts|]; [| done].
  destruct (teachers_comprehension_from ts ∅ m u p Hl Hm) as [Hb | (t & Hin & Ht)].
  - by rewrite lookup_empty in Hb.
  - by exists ts, t.
Qed.

Lemma load_teachers_from_document_witness :
  ∃ ts t, demo_document !! "teachers" = Some ts ∧ t ∈ ts ∧
          t !! "username" = Some "mchen" ∧ t !! "password" = Some "chess456".
Proof.
  apply (load_teachers_from_document demo_document
           {[ "mrodriguez" := "paint789"; "mchen" := "chess456" ]} "mchen" "chess456").
  - vm_compute. reflexivity.
  - vm_compute. reflexivity.
Defined.

(** [load_teachers] succeeds exactly when the document has a ["teachers"]
    member whose entries all have a ["username"] and a ["password"];
    otherwise it raises [KeyError] for one of these three keys, and the
    module does not load. *)
Theorem load_teachers_outcome (data : gmap string (list (gmap string string))) :
  ((∃ m, load_teachers data = inr m) ↔
   ∃ ts, data !! "teachers" = Some ts ∧
         Forall (fun t => is_Some (t !! "username") ∧ is_Some (t !! "password")) ts) ∧
  (∀ e, load_teachers data = inl e ->
        e = KeyError (Some "teachers") ∨ e = KeyError (Some "username") ∨
        e = KeyError (Some "password")).
Proof.
  unfold load_teachers, subscript. destruct (data !! "teachers") as [ts|].
  - split.
    + split.
      * intros [m Hm]. exists ts. split; [done |].
        by apply (teachers_comprehension_wf ts ∅ m).
      * intros (ts' & [= <-] & Hall). by apply teachers_comprehension_ok.
    + intros e He. right. by destruct (teachers_comprehension_error _ _ _ He).
  - split.
    + split; [intros [m [=]] | intros (ts & [=] & _)].
    + intros e [= <-]. by left.
Qed.

(** ** Reading the catalog, and the state before any login *)

(** [get_activities] needs no session, changes nothing and returns the
    live catalog: right after a successful signup the email is the last
    participant of the activity in what it returns. *)
Theorem get_activities_shows_signup (st st1 : State) (name email : string)
    (c : option string) (rp : reply) :
  signup_for_activity name email c st = (inr rp, st1) ->
  ∃ acts a,
    get_activities st1 = (inr acts, st1) ∧
    acts !! name = Some a ∧
    last (participants a) = Some email.
Proof.
  intros Hs.
  destruct (signup_result st name email c)
    as [H | [H | [H | (a & _ & _ & _ & H)]]]; rewrite H in Hs; [done.. |].
  injection Hs as _ <-.
  exists (activities (set_roster st name a (participants a ++ [email]))),
         (with_participants a (participants a ++ [email])).
  split_and!; [done | apply set_roster_lookup | apply last_snoc].
Qed.

Lemma get_activities_shows_signup_witness :
  ∃ acts a,
    get_activities
      (snd (signup_for_activity "Chess Club" "zoe@mergington.edu" (Some demo_token)
              demo_state))
    = (inr acts,
       snd (signup_for_activity "Chess Club" "zoe@mergington.edu" (Some demo_token)
              demo_state)) ∧
    acts !! "Chess Club" = Some a ∧
    last (participants a) = Some "zoe@mergington.edu".
Proof.
  apply (get_activities_shows_signup demo_state _ "Chess Club" "zoe@mergington.edu"
           (Some demo_token) (signed_up "Chess Club" "zoe@mergington.edu")).
  vm_compute. reflexivity.
Defined.

(** While the registry is empty, as it is when the module has loaded, only
    a login can change the state: every logout, signup and unregister
    leaves it as it is. *)
Theorem no_session_no_change (teachers : gmap string string) (r : request) (st : State) :
  sessions st = ∅ ->
  (∀ u p tok, r ≠ Login u p tok) ->
  serve teachers r st = st.
Proof.
  intros Hs Hr.
  assert (∀ c, ¬ valid_session st c) as Hn.
  { intros c (tok & u & _ & _ & Hu). by rewrite Hs, lookup_empty in Hu. }
  destruct r as [u p tok | c | name email c | name email c]; simpl.
  - by destruct (Hr u p tok).
  - rewrite logout_run. simpl. unfold forget. destruct c as [tok|].
    + case_decide; [by destruct st |].
      rewrite delete_id by by rewrite Hs, lookup_empty. by destruct st.
    + by destruct st.
  - by rewrite (signup_invalid _ _ _ _ (Hn c)).
  - by rewrite (unregister_invalid _ _ _ _ (Hn c)).
Qed.

Lemma no_session_no_change_witness :
  serve demo_teachers (Unregister "Chess Club" "michael@mergington.edu" (Some demo_token))
    initial_state
  = initial_state.
Proof.
  apply (no_session_no_change demo_teachers
           (Unregister "Chess Club" "michael@mergington.edu" (Some demo_token))
           initial_state).
  - reflexivity.
  - intros u p tok. discriminate.
Defined.
